(** * url_caption: the web-page image discovery and captioning pipeline

    A shallow embedding of [url_caption] from [src/app.py] (lines 110-176):
    image references are taken from the [<img>] elements of a page, made
    absolute, filtered, fetched, decoded and captioned, until five captions
    have been collected.

    A Python string is modelled by its UTF-8 encoding, a [string] of bytes;
    a character is the group of one to four bytes that encodes it. The tests
    for a prefix, a suffix or a substring compare bytes, which is the same as
    comparing characters on encoded text; [split] works on characters and
    knows every whitespace character of Unicode. The attribute
    dictionary of a BeautifulSoup element as a [gmap string string], Python
    integers as [Z], exceptions as values of an error type, and the outside
    world (network, image decoder, captioning model) as an abstract state
    threaded through the calls that touch it. *)

From Stdlib Require Import ZArith Lia Ascii String List Bool.
From stdpp Require Import gmap strings list.

(** ** Python string methods used by the pipeline *)

Module PyStr.

(** [s.startswith(p)] *)
Fixpoint startswith (s p : string) {struct p} : bool :=
  match p, s with
  | EmptyString, _ => true
  | String _ _, EmptyString => false
  | String b p', String a s' => Ascii.eqb a b && startswith s' p'
  end.

(** [sub in s] *)
Fixpoint contains (s sub : string) : bool :=
  startswith s sub ||
  match s with
  | EmptyString => false
  | String _ s' => contains s' sub
  end.

(** [s.endswith(suf)] *)
Fixpoint endswith (s suf : string) : bool :=
  String.eqb s suf ||
  match s with
  | EmptyString => false
  | String _ s' => endswith s' suf
  end.

(** [s.rstrip(c)] for a one-character argument: every trailing [c] goes. *)
Fixpoint rstrip (s : string) (c : ascii) : string :=
  match s with
  | EmptyString => EmptyString
  | String a s' =>
      match rstrip s' c with
      | EmptyString => if Ascii.eqb a c then EmptyString else String a EmptyString
      | r => String a r
      end
  end.

(** A byte that continues a character: [10xxxxxx]. *)
Definition is_continuation (a : ascii) : bool :=
  let n := nat_of_ascii a in
  (128 <=? n)%nat && (n <? 192)%nat.

(** The characters of a string: every byte that is not a continuation
    starts a character, which takes the continuation bytes after it. *)
Fixpoint chars (s : string) : list string :=
  match s with
  | EmptyString => []
  | String a s' =>
      let rest := chars s' in
      match s' with
      | String b _ =>
          if is_continuation b then
            match rest with
            | c :: rest' => String a c :: rest'
            | [] => [String a EmptyString]
            end
          else String a EmptyString :: rest
      | EmptyString => String a EmptyString :: rest
      end
  end.

(** [c.isspace()] for one character [c], as [str.split] uses it: TAB, LF,
    VT, FF, CR, the separators FS, GS, RS, US and the space; U+0085 and
    U+00A0 (two bytes); U+1680, U+2000 to U+200A, U+2028, U+2029, U+202F,
    U+205F and U+3000 (three bytes). *)
Definition isspace (c : string) : bool :=
  match map nat_of_ascii (list_ascii_of_string c) with
  | [b] => ((9 <=? b) && (b <=? 13)) || ((28 <=? b) && (b <=? 32))
  | [b1; b2] => (b1 =? 194) && ((b2 =? 133) || (b2 =? 160))
  | [b1; b2; b3] =>
      ((b1 =? 225) && (b2 =? 154) && (b3 =? 128))
      || ((b1 =? 226) && (b2 =? 128)
          && (((128 <=? b3) && (b3 <=? 138)) || (b3 =? 168) || (b3 =? 169) || (b3 =? 175)))
      || ((b1 =? 226) && (b2 =? 129) && (b3 =? 159))
      || ((b1 =? 227) && (b2 =? 128) && (b3 =? 128))
  | _ => false
  end%nat.

(** [s.split()] on the characters [cs] of [s]: the maximal runs of
    characters that are not whitespace, in order. [word] is the run being
    read. *)
Fixpoint split_from (cs : list string) (word : string) : list string :=
  match cs with
  | [] => if String.eqb word "" then [] else [word]
  | c :: cs' =>
      if isspace c
      then (if String.eqb word "" then split_from cs' "" else word :: split_from cs' "")
      else split_from cs' (word +:+ c)
  end.

Definition split (s : string) : list string := split_from (chars s) "".

(** Truth value of a string: [bool(s)]. *)
Definition nonempty (s : string) : bool := negb (String.eqb s "").

End PyStr.

(** ** Exceptions and results *)

(** The exceptions that can travel through [url_caption]. [IndexError] is
    the one the function's own code raises (subscript [[0]] of an empty
    list); [OtherException] stands for any other subclass of [Exception]
    raised by a collaborator (a [requests] error, a timeout, PIL's
    [UnidentifiedImageError], an error of the model, ...). The last two are
    the [BaseException]s that are not [Exception]s. *)
Inductive exn : Type :=
| IndexError
| OtherException (name : string)
| KeyboardInterrupt
| SystemExit.

(** [isinstance(e, Exception)]: what [except Exception] catches. *)
Definition is_Exception (e : exn) : bool :=
  match e with
  | IndexError | OtherException _ => true
  | KeyboardInterrupt | SystemExit => false
  end.

Inductive result (A : Type) : Type :=
| Ok (a : A)
| Raise (e : exn).
Arguments Ok {A} a.
Arguments Raise {A} e.

(** ** Reference extraction (lines 124-126) *)

(** Python's [a or b] on values that are [None] or a string. *)
Definition truthy (o : option string) : bool :=
  match o with
  | Some s => PyStr.nonempty s
  | None => false
  end.

Definition py_or (a b : option string) : option string :=
  if truthy a then a else b.

(** [xs[0]] *)
Definition item0 (xs : list string) : result string :=
  match xs with
  | x :: _ => Ok x
  | [] => Raise IndexError
  end.

(** The value of [img_url] after lines 124-126, for an element with the
    attribute dictionary [el]; [el !! k] is [img_element.get(k)]. *)
Definition extract (el : gmap string string) : result (option string) :=
  let img_url := py_or (el !! "src") (el !! "data-src") in
  if negb (truthy img_url) then
    match el !! "srcset" with
    | Some srcset =>
        match item0 (PyStr.split srcset) with
        | Ok first => Ok (Some first)
        | Raise e => Raise e
        end
    | None => Ok img_url
    end
  else Ok img_url.

(** ** Reference resolution (lines 134-144) *)

(** [None] is the [continue] of lines 135 and 144. *)
Definition resolve (url img_url : string) : option string :=
  if PyStr.endswith img_url ".svg" || PyStr.contains img_url ".svg" then None
  else if PyStr.startswith img_url "//" then Some ("https:" +:+ img_url)
  else if PyStr.startswith img_url "/" then Some (PyStr.rstrip url "/" +:+ img_url)
  else if negb (PyStr.startswith img_url "http") then None
  else Some img_url.

(** Lines 124-144 for one element: the reference that goes on to the fetch,
    [None] when the element is skipped. *)
Definition candidate (url : string) (el : gmap string string) : result (option string) :=
  match extract el with
  | Raise e => Raise e
  | Ok img_url =>
      if negb (truthy img_url) then Ok None
      else match img_url with
           | Some raw => Ok (resolve url raw)
           | None => Ok None
           end
  end.

(** ** The outside world *)

(** A [requests] response: the body as bytes and as text. *)
Record Response : Type := { content : string; text : string }.

(** A PIL image: [size] is (width, height). *)
Record Image : Type := { size : Z * Z; raster : string }.

(** One entry of [captions]: the dictionary of line 167. *)
Record Entry : Type := { url : string; caption : string }.

(** What the function does that can be observed from outside: the image
    requests of line 148 and the two [print]s. *)
Inductive event : Type :=
| EvGet (img_url : string)
| EvPrintFound (n : nat)
| EvPrintError (idx : nat) (e : exn).

(** The collaborators of the pipeline, over the state [World] of everything
    outside the process. *)
Record Env (World : Type) : Type := {
  (** [requests.get(url, timeout=timeout, headers=headers)], lines 116 (no
      timeout) and 148 (timeout 10). *)
  requests_get : string -> option Z -> World -> result Response * World;
  (** [BeautifulSoup(text, "html.parser").find_all("img")]: the attribute
      dictionaries of the [<img>] elements, in document order. *)
  find_all_img : string -> list (gmap string string);
  (** [Image.open(BytesIO(content))], line 149. *)
  Image_open : string -> World -> result Image * World;
  (** Lines 156-164: conversion to RGB, the processor, [model.generate] and
      the decoding of its output. *)
  captioner : Image -> World -> result string * World
}.
Arguments requests_get {World} _ _ _ _.
Arguments find_all_img {World} _ _.
Arguments Image_open {World} _ _ _.
Arguments captioner {World} _ _ _.

(** The state of a run: the world, the list [captions] and the observable
    events so far. *)
Record St (World : Type) : Type := {
  world : World;
  captions : list Entry;
  log : list event
}.
Arguments Build_St {World} _ _ _.
Arguments world {World} _.
Arguments captions {World} _.
Arguments log {World} _.

Definition M (World A : Type) : Type := St World -> result A * St World.

Section Pipeline.

Context {World : Type} (env : Env World).

Definition ret {A} (a : A) : M World A := fun st => (Ok a, st).

Definition bind {A B} (m : M World A) (k : A -> M World B) : M World B :=
  fun st =>
    match m st with
    | (Ok a, st') => k a st'
    | (Raise e, st') => (Raise e, st')
    end.

(** [try: m  except Exception as e: h e] *)
Definition try_except {A} (m : M World A) (h : exn -> M World A) : M World A :=
  fun st =>
    match m st with
    | (Ok a, st') => (Ok a, st')
    | (Raise e, st') => if is_Exception e then h e st' else (Raise e, st')
    end.

Definition emit (ev : event) : M World unit :=
  fun st => (Ok tt, {| world := world st; captions := captions st; log := log st ++ [ev] |}).

(** A call of a collaborator: it sees and changes the world only. *)
Definition call {A} (f : World -> result A * World) : M World A :=
  fun st =>
    let (r, w) := f (world st) in
    (r, {| world := w; captions := captions st; log := log st |}).

(** [captions.append(entry)] *)
Definition append (entry : Entry) : M World unit :=
  fun st => (Ok tt, {| world := world st; captions := captions st ++ [entry]; log := log st |}).

(** [len(captions)] *)
Definition len_captions : M World nat := fun st => (Ok (length (captions st)), st).

Definition raise {A} (e : exn) : M World A := fun st => (Raise e, st).

Notation "'let*' x ':=' m 'in' k" := (bind m (fun x => k))
  (at level 10, x pattern, m at level 100, k at level 200).

(** How an iteration of the [for] loop ends: with the next element, or with
    the [break] of line 170. *)
Inductive flow : Type := Next | Stop.

(** The body of the [try], lines 148-170, for the resolved reference
    [img_url]. The [continue] of line 154 is [Next]. *)
Definition attempt (img_url : string) : M World flow :=
  let* _ := emit (EvGet img_url) in
  let* r := call (requests_get env img_url (Some 10%Z)) in
  let* raw_image := call (Image_open env (content r)) in
  if (fst (size raw_image) * snd (size raw_image) <? 200)%Z then ret Next
  else
    let* caption := call (captioner env raw_image) in
    let* _ := append {| url := img_url; caption := caption |} in
    let* n := len_captions in
    if (5 <=? n)%nat then ret Stop else ret Next.

(** The handler of lines 172-174. *)
Definition handler (idx : nat) (e : exn) : M World flow :=
  let* _ := emit (EvPrintError idx e) in
  ret Next.

(** One iteration of the loop, lines 123-174. *)
Definition body (url : string) (idx : nat) (el : gmap string string) : M World flow :=
  match candidate url el with
  | Raise e => raise e
  | Ok None => ret Next
  | Ok (Some img_url) => try_except (attempt img_url) (handler idx)
  end.

(** The [for] loop of line 122 over the elements from index [idx] on. *)
Fixpoint loop (url : string) (idx : nat) (els : list (gmap string string)) : M World unit :=
  match els with
  | [] => ret tt
  | el :: rest =>
      let* f := body url idx el in
      match f with
      | Stop => ret tt
      | Next => loop url (S idx) rest
      end
  end.

(** Lines 115-174: from the page address to the filled [captions]. *)
Definition pipeline (url : string) : M World unit :=
  let* response := call (requests_get env url None) in
  let img_elements := find_all_img env (text response) in
  let* _ := emit (EvPrintFound (length img_elements)) in
  loop url 1 img_elements.

Inductive http_method : Type := GET | POST.

(** [request.form["url_addr"]]: a missing key is werkzeug's
    [BadRequestKeyError]. *)
Definition form_get (form : gmap string string) (key : string) : result string :=
  match form !! key with
  | Some v => Ok v
  | None => Raise (OtherException "BadRequestKeyError")
  end.

Definition init (w : World) : St World := {| world := w; captions := []; log := [] |}.

(** [url_caption]: the list handed to the template, or the exception that
    leaves the function, and the final state. *)
Definition url_caption (method : http_method) (form : gmap string string) (w : World)
  : result (list Entry) * St World :=
  match method with
  | POST =>
      match form_get form "url_addr" with
      | Raise e => (Raise e, init w)
      | Ok url =>
          match pipeline url (init w) with
          | (Ok _, st) => (Ok (captions st), st)
          | (Raise e, st) => (Raise e, st)
          end
      end
  | GET => (Ok [], init w)
  end.

End Pipeline.

(** ** A small concrete world

    The world is a clock that counts the calls made so far; what a
    collaborator answers is read off the address, so that each behaviour of
    the pipeline can be exercised by choosing addresses. *)

Definition demo_requests_get (u : string) (timeout : option Z) (w : nat)
  : result Response * nat :=
  if PyStr.contains u "timeout" then (Raise (OtherException "ConnectTimeout"), S w)
  else (Ok {| content := u; text := u |}, S w).

Definition demo_Image_open (c : string) (w : nat) : result Image * nat :=
  if PyStr.contains c "corrupt" then (Raise (OtherException "UnidentifiedImageError"), S w)
  else if PyStr.contains c "pixel" then (Ok {| size := (1, 1)%Z; raster := c |}, S w)
  else (Ok {| size := (640, 480)%Z; raster := c |}, S w).

Definition demo_captioner (img : Image) (w : nat) : result string * nat :=
  if PyStr.contains (raster img) "nocaption" then (Raise (OtherException "RuntimeError"), S w)
  else (Ok ("a photo of " +:+ raster img), S w).

(** The page at every address holds the elements [els]. *)
Definition demo_env (els : list (gmap string string)) : Env nat :=
  {| requests_get := demo_requests_get;
     find_all_img := fun _ => els;
     Image_open := demo_Image_open;
     captioner := demo_captioner |}.

(** [<img src="s">] *)
Definition img_src (s : string) : gmap string string := {[ "src" := s ]}.

(** The markup [<img src="/a.jpg"><img src="http://x/b.svg"><img data-src="//cdn/c.jpg">]. *)
Definition markup3 : list (gmap string string) :=
  [ {[ "src" := "/a.jpg" ]}; {[ "src" := "http://x/b.svg" ]}; {[ "data-src" := "//cdn/c.jpg" ]} ].

(** [<img srcset="">] *)
Definition img_empty_srcset : gmap string string := {[ "srcset" := "" ]}.

(** Five elements with absolute references, and a sixth. *)
Definition five_images : list (gmap string string) :=
  map img_src ["http://a/1.jpg"; "http://a/2.jpg"; "http://a/3.jpg"; "http://a/4.jpg";
               "http://a/5.jpg"].

Definition sixth_image : gmap string string := img_src "http://a/6.jpg".

(** ** Vocabulary of the properties *)

(** The reference an element sends on to the fetch, if any. *)
Definition resolved (url : string) (el : gmap string string) : option string :=
  match candidate url el with
  | Ok (Some img_url) => Some img_url
  | _ => None
  end.

(** What lines 124-144 let through, over all elements, in document order. *)
Definition resolved_refs (url : string) (els : list (gmap string string)) : list string :=
  omap (resolved url) els.

(** The addresses of the image requests in a log, in the order they were made. *)
Definition gets (evs : list event) : list string :=
  omap (fun ev => match ev with EvGet u => Some u | _ => None end) evs.

(** A reference is root-relative: it starts with one slash, not two. *)
Definition root_relative (raw : string) : bool :=
  PyStr.startswith raw "/" && negb (PyStr.startswith raw "//").

(** The fetch, the decoding or the caption call for the reference [u] fails
    with [e], in the world [w], leaving the world [w']. *)
Inductive stage_fails {World : Type} (env : Env World) (u : string) (w : World)
  : exn -> World -> Prop :=
| fetch_fails e w1 :
    requests_get env u (Some 10%Z) w = (Raise e, w1) ->
    stage_fails env u w e w1
| decode_fails r w1 e w2 :
    requests_get env u (Some 10%Z) w = (Ok r, w1) ->
    Image_open env (content r) w1 = (Raise e, w2) ->
    stage_fails env u w e w2
| caption_fails r w1 img w2 e w3 :
    requests_get env u (Some 10%Z) w = (Ok r, w1) ->
    Image_open env (content r) w1 = (Ok img, w2) ->
    (fst (size img) * snd (size img) <? 200)%Z = false ->
    captioner env img w2 = (Raise e, w3) ->
    stage_fails env u w e w3.

(** ** The other handlers of [src/app.py]

    [emotion_selection] (lines 33-39), [recommendations] (lines 41-77) and
    [caption_generation] (lines 85-102). They read JSON documents returned
    by three web services, so the values of Python's [json] module come
    first. *)

(** A value returned by [resp.json()]. A float is kept as its literal
    together with its truth value (whether it differs from [0.0]), which is
    all the handlers can observe of it. *)
#[warning="-register-all"]
Inductive json : Type :=
| JNull
| JBool (b : bool)
| JInt (n : Z)
| JFloat (lit : string) (nonzero : bool)
| JStr (s : string)
| JList (xs : list json)
| JDict (kvs : gmap string json).

Definition KeyError : exn := OtherException "KeyError".
Definition TypeError : exn := OtherException "TypeError".

(** [j[k]] for a string [k]: only a dictionary can be subscripted by a
    string. *)
Definition getitem (j : json) (k : string) : result json :=
  match j with
  | JDict kvs =>
      match kvs !! k with
      | Some v => Ok v
      | None => Raise KeyError
      end
  | _ => Raise TypeError
  end.

(** [j[0]]: the first item of a list, the first character of a string; a
    dictionary of a JSON document has no key [0]. *)
Definition getitem0 (j : json) : result json :=
  match j with
  | JList (x :: _) => Ok x
  | JList [] => Raise IndexError
  | JStr s =>
      match PyStr.chars s with
      | c :: _ => Ok (JStr c)
      | [] => Raise IndexError
      end
  | JDict _ => Raise KeyError
  | _ => Raise TypeError
  end.

(** [k in j] for a string [k]. *)
Definition py_in (k : string) (j : json) : result bool :=
  match j with
  | JDict kvs => Ok (bool_decide (is_Some (kvs !! k)))
  | JList xs =>
      Ok (existsb (fun x => match x with JStr s => String.eqb s k | _ => false end) xs)
  | JStr s => Ok (PyStr.contains s k)
  | _ => Raise TypeError
  end.

(** [bool(j)] *)
Definition json_truthy (j : json) : bool :=
  match j with
  | JNull => false
  | JBool b => b
  | JInt n => negb (n =? 0)%Z
  | JFloat _ nonzero => nonzero
  | JStr s => PyStr.nonempty s
  | JList xs => negb (bool_decide (xs = []))
  | JDict kvs => negb (bool_decide (kvs = ∅))
  end.

(** The items of [for u in j]: the items of a list, the keys of a
    dictionary, the characters of a string. (The keys come in the order of
    the map, not in insertion order; they are strings in any order.) *)
Definition py_iter (j : json) : result (list json) :=
  match j with
  | JList xs => Ok xs
  | JDict kvs => Ok (map (fun kv => JStr (fst kv)) (map_to_list kvs))
  | JStr s => Ok (map JStr (PyStr.chars s))
  | _ => Raise TypeError
  end.

Definition rbind {A B} (r : result A) (k : A -> result B) : result B :=
  match r with
  | Ok a => k a
  | Raise e => Raise e
  end.

Notation "'do*' x ':=' r 'in' k" := (rbind r (fun x => k))
  (at level 10, x pattern, r at level 100, k at level 200).

(** [a + s] and [s + b] where [s] is a string: defined on strings only. *)
Definition as_str (j : json) : result string :=
  match j with
  | JStr s => Ok s
  | _ => Raise TypeError
  end.

(** [u["name"]["first"] + " " + u["name"]["last"]], evaluated from left to
    right. *)
Definition full_name (u : json) : result string :=
  do* name := getitem u "name" in
  do* first := getitem name "first" in
  do* first_sp := (do* f := as_str first in Ok (f +:+ " ")) in
  do* name' := getitem u "name" in
  do* last := getitem name' "last" in
  do* l := as_str last in
  Ok (first_sp +:+ l).

(** A list comprehension [[f(u) for u in xs]]: it stops at the first
    exception. *)
Fixpoint comprehension {A B} (f : A -> result B) (xs : list A) : result (list B) :=
  match xs with
  | [] => Ok []
  | x :: rest =>
      do* y := f x in
      do* ys := comprehension f rest in
      Ok (y :: ys)
  end.

(** Lines 38 and 47, from the parsed response on. *)
Definition users_of (j : json) : result (list string) :=
  do* results := getitem j "results" in
  do* items := py_iter results in
  comprehension full_name items.

(** The dictionary of lines 51-58. *)
Definition emotion_to_tag : gmap string string :=
  {[ "sad" := "comfort food"; "happy" := "dessert"; "fear" := "soup";
     "anger" := "spicy"; "depression" := "chocolate"; "nervous" := "snack" ]}.

(** [emotion_to_tag.get(emotion, "main course")], line 59; [emotion] is
    [None] when the form has no such field. *)
Definition tag_of (emotion : option string) : string :=
  match emotion with
  | Some e => default "main course" (emotion_to_tag !! e)
  | None => "main course"
  end.

(** [f"{x}"] for a value that is a string or [None]. *)
Definition fmt (x : option string) : string :=
  match x with
  | Some s => s
  | None => "None"
  end.

(** An uploaded file: werkzeug's [FileStorage]. *)
Record FileStorage : Type := { filename : option string; stream : string }.

(** What the handlers need beside the collaborators of the pipeline. *)
Record App (World : Type) : Type := {
  app_env : Env World;
  (** [resp.json()] *)
  response_json : Response -> result json;
  (** [os.getenv("GOOGLE_BOOKS_API_KEY")], line 20. *)
  GOOGLE_BOOKS_API_KEY : option string;
  (** [os.getenv("SPOONACULAR_API_KEY")], line 21. *)
  SPOONACULAR_API_KEY : option string;
  (** werkzeug's [secure_filename]. *)
  secure_filename : string -> string;
  (** [file.save(filepath)], line 94. *)
  file_save : string -> string -> World -> result unit * World;
  (** Lines 96-98: the processor, [model.generate(max_length=50)] and the
      decoding of its output, on the image converted to RGB. *)
  upload_captioner : Image -> World -> result string * World;
  (** [url_for("static", filename=name)] *)
  url_for_static : string -> string
}.
Arguments app_env {World} _.
Arguments response_json {World} _ _.
Arguments GOOGLE_BOOKS_API_KEY {World} _.
Arguments SPOONACULAR_API_KEY {World} _.
Arguments secure_filename {World} _ _.
Arguments file_save {World} _ _ _ _.
Arguments upload_captioner {World} _ _ _.
Arguments url_for_static {World} _ _.

(** The arguments [recommendations] hands to the template. *)
Record Recommended : Type := {
  users : list string;
  recommendations_dict : gmap string json;
  person : option string;
  emotion : option string
}.

(** [os.path.join(a, b)] on a POSIX system. *)
Definition path_join (a b : string) : string :=
  if PyStr.startswith b "/" then b
  else if String.eqb a "" || PyStr.endswith a "/" then a +:+ b
  else a +:+ "/" +:+ b.

Definition users_url : string := "https://randomuser.me/api/?results=10".

(** The addresses of lines 60, 69 and 74. *)
Definition recipe_url_of (tag : string) (key : option string) : string :=
  "https://api.spoonacular.com/recipes/random?tags=" +:+ tag +:+ "&apiKey=" +:+ fmt key.

Definition book_url_of (emotion key : option string) : string :=
  "https://www.googleapis.com/books/v1/volumes?q=" +:+ fmt emotion +:+ "&key=" +:+ fmt key.

Definition song_url_of (emotion : option string) : string :=
  "https://itunes.apple.com/search?term=" +:+ fmt emotion +:+ "&entity=song&limit=1".

Section Handlers.

Context {World : Type} (app : App World).

Notation "'let*' x ':=' m 'in' k" := (bind m (fun x => k))
  (at level 10, x pattern, m at level 100, k at level 200).

(** A computation without effect, inside a handler. *)
Definition lift {A} (r : result A) : M World A := fun st => (r, st).

(** [requests.get(url)], with the request recorded in the log. *)
Definition http_get (url : string) : M World Response :=
  let* _ := emit (EvGet url) in
  call (requests_get (app_env app) url None).

(** Lines 37-38 and 46-47. *)
Definition fetch_users : M World (list string) :=
  let* resp := http_get users_url in
  lift (do* j := response_json app resp in users_of j).

(** [emotion_selection]: the [users] handed to the template. *)
Definition emotion_selection : M World (list string) := fetch_users.

(** Lines 64-66 on the parsed recipe response [data]: the dictionary
    [recommendations] after them. *)
Definition recipe_step (data : json) (recs : gmap string json) : result (gmap string json) :=
  do* present := py_in "recipes" data in
  do* cond := (if present then
                 do* v := getitem data "recipes" in Ok (json_truthy v)
               else Ok false) in
  if cond then
    do* title :=
      (do* rs := getitem data "recipes" in do* r := getitem0 rs in getitem r "title") in
    let recs := <["recipe" := title]> recs in
    do* source :=
      (do* rs := getitem data "recipes" in do* r := getitem0 rs in getitem r "sourceUrl") in
    Ok (<["recipe_url" := source]> recs)
  else Ok recs.

(** Line 71 on the book response. *)
Definition book_title (resp : Response) : result json :=
  do* j := response_json app resp in
  do* items := getitem j "items" in
  do* item := getitem0 items in
  do* info := getitem item "volumeInfo" in
  getitem info "title".

(** Lines 75 and 76 on the song response. *)
Definition song_field (resp : Response) (field : string) : result json :=
  do* j := response_json app resp in
  do* results := getitem j "results" in
  do* item := getitem0 results in
  getitem item field.

(** [recommendations], lines 42-77. *)
Definition recommendations (form : gmap string string) : M World Recommended :=
  let person := form !! "person" in
  let emotion := form !! "emotion" in
  let* users := fetch_users in
  let recs : gmap string json := ∅ in
  let tag := tag_of emotion in
  let* recipe_resp := http_get (recipe_url_of tag (SPOONACULAR_API_KEY app)) in
  let* data := lift (response_json app recipe_resp) in
  let* recs := lift (recipe_step data recs) in
  let* book_resp := http_get (book_url_of emotion (GOOGLE_BOOKS_API_KEY app)) in
  let* book := lift (book_title book_resp) in
  let recs := <["book" := book]> recs in
  let* song_resp := http_get (song_url_of emotion) in
  let* track := lift (song_field song_resp "trackName") in
  let recs := <["song" := track]> recs in
  let* artist := lift (song_field song_resp "artistName") in
  let recs := <["song_artist" := artist]> recs in
  ret {| users := users; recommendations_dict := recs;
         person := person; emotion := emotion |}.

(** [caption_generation], lines 86-102: the pair ([image_url], [caption])
    handed to the template. [bool(file)] is the truth value of its file
    name. *)
Definition caption_generation (method : http_method) (files : gmap string FileStorage)
  : M World (option string * option string) :=
  match method with
  | GET => ret (None, None)
  | POST =>
      match files !! "image" with
      | None => raise (OtherException "BadRequestKeyError")
      | Some file =>
          if truthy (filename file) then
            let name := secure_filename app (default "" (filename file)) in
            let filepath := path_join "static/uploads" name in
            let* _ := call (file_save app filepath (stream file)) in
            let* image := call (Image_open (app_env app) (stream file)) in
            let* caption := call (upload_captioner app image) in
            let image_url := url_for_static app ("uploads/" +:+ name) in
            ret (Some image_url, Some caption)
          else ret (None, None)
      end
  end.

End Handlers.

(** A concrete application over the small world: every service answers
    with the document found in [docs] under the address requested. *)
Definition demo_json (docs : gmap string json) (resp : Response) : result json :=
  match docs !! text resp with
  | Some j => Ok j
  | None => Raise (OtherException "JSONDecodeError")
  end.

Definition demo_app (docs : gmap string json) : App nat :=
  {| app_env := demo_env [];
     response_json := demo_json docs;
     GOOGLE_BOOKS_API_KEY := Some "GK";
     SPOONACULAR_API_KEY := None;
     secure_filename := fun s => s;
     file_save := fun _ _ w => (Ok tt, S w);
     upload_captioner := demo_captioner;
     url_for_static := fun name => "/static/" +:+ name |}.

Definition demo_user (first last : string) : json :=
  JDict {[ "name" := JDict {[ "first" := JStr first; "last" := JStr last ]} ]}.

Definition demo_users_doc : json :=
  JDict {[ "results" := JList [demo_user "Ada" "Lovelace"; demo_user "Alan" "Turing"] ]}.

(** ** More vocabulary *)

(** Every character of [s] is whitespace. *)
Definition all_space (s : string) : bool := forallb PyStr.isspace (PyStr.chars s).

(** The no-break space U+00A0, which an HTML parser makes of [&nbsp;], and
    the ideographic space U+3000. *)
Definition nbsp : string := String (ascii_of_nat 194) (String (ascii_of_nat 160) "").
Definition ideographic_space : string :=
  String (ascii_of_nat 227) (String (ascii_of_nat 128) (String (ascii_of_nat 128) "")).

(** The printed failures of a log: the index and the exception of each. *)
Definition print_errors (evs : list event) : list (nat * exn) :=
  omap (fun ev => match ev with EvPrintError i e => Some (i, e) | _ => None end) evs.

(** A world in which every request is interrupted from the keyboard. *)
Definition interrupted_env : Env nat :=
  {| requests_get := fun _ _ w => (Raise KeyboardInterrupt, S w);
     find_all_img := fun _ => [];
     Image_open := demo_Image_open;
     captioner := demo_captioner |}.

(** Elements that lead to no request: no attribute, a vector image, a data
    address and a path relative to the page. *)
Definition unusable_images : list (gmap string string) :=
  [ ∅; img_src "/logo.svg"; img_src "data:image/png;base64,AAAA"; img_src "images/a.jpg" ].

(** The addresses [recommendations] sends requests to, in the order of the
    code: lines 46, 61, 70 and 74. *)
Definition recommendation_urls {World : Type} (app : App World)
    (form : gmap string string) : list string :=
  [ users_url;
    recipe_url_of (tag_of (form !! "emotion")) (SPOONACULAR_API_KEY app);
    book_url_of (form !! "emotion") (GOOGLE_BOOKS_API_KEY app);
    song_url_of (form !! "emotion") ].

(** The keys of [emotion_to_tag]. *)
Definition known_emotions : list string :=
  ["sad"; "happy"; "fear"; "anger"; "depression"; "nervous"].

(** Documents for the small world: the users, a recipe service that
    answers with an error document, and a book service that finds
    nothing. *)
Definition demo_form : gmap string string := {[ "person" := "Ada Lovelace"; "emotion" := "sad" ]}.

Definition demo_docs : gmap string json :=
  {[ users_url := demo_users_doc;
     recipe_url_of "comfort food" None := JDict {[ "status" := JStr "failure" ]};
     book_url_of (Some "sad") (Some "GK") := JDict {[ "totalItems" := JInt 0 ]} ]}.

Definition demo_upload (name body : string) : gmap string FileStorage :=
  {[ "image" := {| filename := Some name; stream := body |} ]}.

Definition demo_url_form : gmap string string := {[ "url_addr" := "https://site.com" ]}.

(** An image that loads and one whose request times out. *)
Definition one_good_one_late : list (gmap string string) :=
  [ img_src "http://a/1.jpg"; img_src "/timeout.jpg" ].

(** Documents with which every step of [recommendations] succeeds. *)
Definition demo_docs_ok : gmap string json :=
  {[ users_url := demo_users_doc;
     recipe_url_of "comfort food" None :=
       JDict {[ "recipes" :=
                  JList [JDict {[ "title" := JStr "Stew"; "sourceUrl" := JStr "http://r/stew" ]}] ]};
     book_url_of (Some "sad") (Some "GK") :=
       JDict {[ "items" :=
                  JList [JDict {[ "volumeInfo" := JDict {[ "title" := JStr "Blue" ]} ]}] ]};
     song_url_of (Some "sad") :=
       JDict {[ "results" :=
                  JList [JDict {[ "trackName" := JStr "Rain"; "artistName" := JStr "Ann" ]}] ]} ]}.

(** Documents with which every step succeeds for a form without emotion. *)
Definition demo_docs_no_emotion : gmap string json :=
  {[ users_url := demo_users_doc;
     recipe_url_of "main course" None :=
       JDict {[ "recipes" :=
                  JList [JDict {[ "title" := JStr "Stew"; "sourceUrl" := JStr "http://r/stew" ]}] ]};
     book_url_of None (Some "GK") :=
       JDict {[ "items" :=
                  JList [JDict {[ "volumeInfo" := JDict {[ "title" := JStr "Blue" ]} ]}] ]};
     song_url_of None :=
       JDict {[ "results" :=
                  JList [JDict {[ "trackName" := JStr "Rain"; "artistName" := JStr "Ann" ]}] ]} ]}.

Definition demo_recommended : Recommended :=
  {| users := ["Ada Lovelace"; "Alan Turing"];
     recommendations_dict :=
       {[ "recipe" := JStr "Stew"; "recipe_url" := JStr "http://r/stew";
          "book" := JStr "Blue"; "song" := JStr "Rain"; "song_artist" := JStr "Ann" ]};
     person := Some "Ada Lovelace";
     emotion := Some "sad" |}.

(** ** Proof steps used more than once *)

(** Membership in a list given by its elements. *)
Ltac in_list :=
  repeat first [apply list_elem_of_here | apply list_elem_of_further].

(** A run of [recommendations] that ended after [n] requests. *)
Ltac requests_leaf n :=
  exists n; subst; cbn [fst snd log captions];
  split; [lia|]; split; [cbn; rewrite <- ?app_assoc; reflexivity|];
  split; [reflexivity|]; intros ?; try discriminate; intros _; reflexivity.

(** * Properties *)

(** ** Strings *)

Lemma startswith_cons_inv s b p :
  PyStr.startswith s (String b p) = true ->
  exists s', s = String b s' /\ PyStr.startswith s' p = true.
Proof.
  destruct s as [|a s']; simpl; [discriminate|].
  intros H. apply andb_true_iff in H as [Hab Hp].
  apply Ascii.eqb_eq in Hab. subst a. eauto.
Qed.

Lemma startswith_refl s : PyStr.startswith s s = true.
Proof.
  induction s as [|a s IH]; simpl; [reflexivity|].
  rewrite Ascii.eqb_refl. exact IH.
Qed.

Lemma startswith_app p s : PyStr.startswith (p +:+ s) p = true.
Proof.
  induction p as [|a p IH]; simpl; [reflexivity|].
  rewrite Ascii.eqb_refl. exact IH.
Qed.

(** The first test of line 134 is subsumed by the second. *)
Lemma endswith_contains s suf :
  PyStr.endswith s suf = true -> PyStr.contains s suf = true.
Proof.
  induction s as [|a s IH]; cbn [PyStr.endswith PyStr.contains]; intros H.
  - rewrite orb_false_r in H. apply String.eqb_eq in H. subst suf. reflexivity.
  - apply orb_true_iff in H as [H|H].
    + apply String.eqb_eq in H. subst suf.
      rewrite startswith_refl. reflexivity.
    + rewrite (IH H). apply orb_true_r.
Qed.

Lemma not_contains_not_endswith s suf :
  PyStr.contains s suf = false -> PyStr.endswith s suf = false.
Proof.
  intros H. destruct (PyStr.endswith s suf) eqn:E; [|reflexivity].
  apply endswith_contains in E. congruence.
Qed.

Lemma http_not_slash raw :
  PyStr.startswith raw "http" = true -> PyStr.startswith raw "/" = false.
Proof.
  intros H. apply startswith_cons_inv in H as (s' & -> & _). reflexivity.
Qed.

Lemma startswith_slash2_slash raw :
  PyStr.startswith raw "/" = false -> PyStr.startswith raw "//" = false.
Proof.
  destruct raw as [|a s]; simpl; [reflexivity|].
  rewrite andb_true_r. intros ->. reflexivity.
Qed.

(** ** Resolution *)

Lemma resolve_svg url raw :
  PyStr.contains raw ".svg" = true -> resolve url raw = None.
Proof.
  intros H. unfold resolve. rewrite H, orb_true_r. reflexivity.
Qed.

Lemma resolve_scheme_relative url raw :
  PyStr.contains raw ".svg" = false ->
  PyStr.startswith raw "//" = true ->
  resolve url raw = Some ("https:" +:+ raw).
Proof.
  intros Hsvg H. unfold resolve.
  rewrite (not_contains_not_endswith _ _ Hsvg), Hsvg, H. reflexivity.
Qed.

Lemma resolve_root_relative url raw :
  PyStr.contains raw ".svg" = false ->
  root_relative raw = true ->
  resolve url raw = Some (PyStr.rstrip url "/" +:+ raw).
Proof.
  intros Hsvg H. unfold root_relative in H.
  apply andb_true_iff in H as [H1 H2]. apply negb_true_iff in H2.
  unfold resolve.
  rewrite (not_contains_not_endswith _ _ Hsvg), Hsvg, H2, H1. reflexivity.
Qed.

Lemma resolve_http url raw :
  PyStr.contains raw ".svg" = false ->
  PyStr.startswith raw "http" = true ->
  resolve url raw = Some raw.
Proof.
  intros Hsvg H. unfold resolve.
  rewrite (not_contains_not_endswith _ _ Hsvg), Hsvg.
  pose proof (http_not_slash _ H) as H1.
  rewrite (startswith_slash2_slash _ H1), H1, H. reflexivity.
Qed.

Lemma resolve_other url raw :
  PyStr.startswith raw "/" = false ->
  PyStr.startswith raw "http" = false ->
  resolve url raw = None.
Proof.
  intros H1 H. unfold resolve.
  rewrite (startswith_slash2_slash _ H1), H1, H.
  destruct (_ || _); reflexivity.
Qed.

(** ** Extraction *)

Lemma truthy_some s : s <> "" -> truthy (Some s) = true.
Proof.
  intros Hs. unfold truthy, PyStr.nonempty. apply negb_true_iff, String.eqb_neq, Hs.
Qed.

Lemma extract_src (el : gmap string string) s :
  el !! "src" = Some s -> s <> "" -> extract el = Ok (Some s).
Proof.
  intros H Hs. unfold extract, py_or. cbv zeta. rewrite H.
  rewrite (truthy_some s Hs). cbv iota. rewrite (truthy_some s Hs). reflexivity.
Qed.

Lemma extract_data_src (el : gmap string string) d :
  truthy (el !! "src") = false ->
  el !! "data-src" = Some d -> d <> "" -> extract el = Ok (Some d).
Proof.
  intros Hsrc H Hd. unfold extract, py_or. cbv zeta. rewrite Hsrc, H.
  rewrite (truthy_some d Hd). reflexivity.
Qed.

Lemma extract_srcset (el : gmap string string) v :
  truthy (el !! "src") = false ->
  truthy (el !! "data-src") = false ->
  el !! "srcset" = Some v ->
  extract el = match PyStr.split v with
               | first :: _ => Ok (Some first)
               | [] => Raise IndexError
               end.
Proof.
  intros Hsrc Hd H. unfold extract, py_or. rewrite Hsrc, Hd, H. cbn.
  destruct (PyStr.split v); reflexivity.
Qed.

Lemma extract_absent (el : gmap string string) :
  truthy (el !! "src") = false ->
  truthy (el !! "data-src") = false ->
  el !! "srcset" = None ->
  extract el = Ok (el !! "data-src") /\ candidate "" el = Ok None.
Proof.
  intros Hsrc Hd H. unfold candidate, extract, py_or. rewrite Hsrc, Hd, H. cbn.
  rewrite Hd. split; reflexivity.
Qed.

(** The only exception the extraction raises is the [IndexError] of line 126. *)
Lemma extract_raise (el : gmap string string) e :
  extract el = Raise e ->
  e = IndexError /\ exists v, el !! "srcset" = Some v /\ PyStr.split v = [].
Proof.
  unfold extract. destruct (negb _); [|discriminate].
  destruct (el !! "srcset") as [v|]; [|discriminate].
  destruct (PyStr.split v) eqn:E; cbn; [|discriminate].
  intros [= <-]. eauto.
Qed.

Lemma candidate_raise url (el : gmap string string) e :
  candidate url el = Raise e <-> extract el = Raise e.
Proof.
  unfold candidate. destruct (extract el) as [o|e']; [|tauto].
  split; [|discriminate].
  destruct (negb _); [discriminate|]. destruct o; discriminate.
Qed.

(** What is resolved comes from a non-empty extracted reference. *)
Lemma candidate_some url (el : gmap string string) u :
  candidate url el = Ok (Some u) <->
  exists raw, extract el = Ok (Some raw) /\ raw <> "" /\ resolve url raw = Some u.
Proof.
  unfold candidate. destruct (extract el) as [[raw|]|e]; cbn.
  - unfold PyStr.nonempty. destruct (String.eqb_spec raw ""); cbn.
    + split; [discriminate|]. intros (r & [= <-] & Hr & _). contradiction.
    + split.
      * intros [= H]. eauto.
      * intros (r & [= <-] & _ & ->). reflexivity.
  - split; [discriminate|]. intros (r & [=] & _).
  - split; [discriminate|]. intros (r & [=] & _).
Qed.

(** ** One candidate *)

Section Candidate.

Context {World : Type} (env : Env World).

Lemma attempt_fails u (st : St World) e w' :
  stage_fails env u (world st) e w' ->
  attempt env u st =
  (Raise e, {| world := w'; captions := captions st; log := log st ++ [EvGet u] |}).
Proof.
  intros H. unfold attempt, bind, emit, call. cbn.
  destruct H as [e w1 H1 | r w1 e w2 H1 H2 | r w1 img w2 e w3 H1 H2 H3 H4].
  - rewrite H1. reflexivity.
  - rewrite H1. cbn. rewrite H2. reflexivity.
  - rewrite H1. cbn. rewrite H2. cbn. rewrite H3. cbn. rewrite H4. reflexivity.
Qed.

Lemma attempt_small u (st : St World) r w1 img w2 :
  requests_get env u (Some 10%Z) (world st) = (Ok r, w1) ->
  Image_open env (content r) w1 = (Ok img, w2) ->
  (fst (size img) * snd (size img) <? 200)%Z = true ->
  attempt env u st =
  (Ok Next, {| world := w2; captions := captions st; log := log st ++ [EvGet u] |}).
Proof.
  intros H1 H2 H3. unfold attempt, bind, emit, call. cbn.
  rewrite H1. cbn. rewrite H2. cbn. rewrite H3. reflexivity.
Qed.

Lemma attempt_success u (st : St World) r w1 img w2 c w3 :
  requests_get env u (Some 10%Z) (world st) = (Ok r, w1) ->
  Image_open env (content r) w1 = (Ok img, w2) ->
  (fst (size img) * snd (size img) <? 200)%Z = false ->
  captioner env img w2 = (Ok c, w3) ->
  attempt env u st =
  (Ok (if (5 <=? length (captions st ++ [{| url := u; caption := c |}]))%nat then Stop else Next),
   {| world := w3;
      captions := captions st ++ [{| url := u; caption := c |}];
      log := log st ++ [EvGet u] |}).
Proof.
  intros H1 H2 H3 H4. unfold attempt, bind, emit, call, append, len_captions. cbn.
  rewrite H1. cbn. rewrite H2. cbn. rewrite H3. cbn. rewrite H4. cbn.
  destruct (length (captions st ++ [{| url := u; caption := c |}]))
    as [|[|[|[|[|n]]]]]; reflexivity.
Qed.

(** The three ways an attempt can end. *)
Lemma attempt_cases u (st : St World) :
  (exists e w', stage_fails env u (world st) e w' /\
     attempt env u st =
     (Raise e, {| world := w'; captions := captions st; log := log st ++ [EvGet u] |}))
  \/ (exists w',
     attempt env u st =
     (Ok Next, {| world := w'; captions := captions st; log := log st ++ [EvGet u] |}))
  \/ (exists c w',
     attempt env u st =
     (Ok (if (5 <=? length (captions st ++ [{| url := u; caption := c |}]))%nat
          then Stop else Next),
      {| world := w';
         captions := captions st ++ [{| url := u; caption := c |}];
         log := log st ++ [EvGet u] |})).
Proof.
  destruct (requests_get env u (Some 10%Z) (world st)) as [[r|e] w1] eqn:H1.
  2:{ left. exists e, w1. split; [|apply attempt_fails]; apply fetch_fails, H1. }
  destruct (Image_open env (content r) w1) as [[img|e] w2] eqn:H2.
  2:{ left. exists e, w2. split; [|apply attempt_fails]; eapply decode_fails; eauto. }
  destruct (fst (size img) * snd (size img) <? 200)%Z eqn:H3.
  { right. left. exists w2. eapply attempt_small; eauto. }
  destruct (captioner env img w2) as [[c|e] w3] eqn:H4.
  2:{ left. exists e, w3. split; [|apply attempt_fails]; eapply caption_fails; eauto. }
  right. right. exists c, w3. eapply attempt_success; eauto.
Qed.

Lemma body_skip url idx (el : gmap string string) (st : St World) :
  candidate url el = Ok None -> body env url idx el st = (Ok Next, st).
Proof. intros H. unfold body. rewrite H. reflexivity. Qed.

Lemma body_raise url idx (el : gmap string string) (st : St World) e :
  candidate url el = Raise e -> body env url idx el st = (Raise e, st).
Proof. intros H. unfold body. rewrite H. reflexivity. Qed.

Lemma body_try url idx (el : gmap string string) (st : St World) u :
  candidate url el = Ok (Some u) ->
  body env url idx el st = try_except (attempt env u) (handler idx) st.
Proof. intros H. unfold body. rewrite H. reflexivity. Qed.

(** A failure of a stage is caught, printed, and the loop goes on. *)
Lemma body_absorbs url idx (el : gmap string string) (st : St World) u e w' :
  candidate url el = Ok (Some u) ->
  stage_fails env u (world st) e w' ->
  is_Exception e = true ->
  body env url idx el st =
  (Ok Next, {| world := w'; captions := captions st;
               log := log st ++ [EvGet u; EvPrintError idx e] |}).
Proof.
  intros Hc Hf He. rewrite (body_try _ _ _ _ _ Hc). unfold try_except.
  rewrite (attempt_fails _ _ _ _ Hf), He. unfold handler, bind, emit. cbn.
  rewrite <- app_assoc. reflexivity.
Qed.

Lemma loop_cons url idx (el : gmap string string) rest (st : St World) :
  loop env url idx (el :: rest) st =
  match body env url idx el st with
  | (Ok Next, st') => loop env url (S idx) rest st'
  | (Ok Stop, st') => (Ok tt, st')
  | (Raise e, st') => (Raise e, st')
  end.
Proof.
  cbn [loop]. unfold bind. destruct (body env url idx el st) as [[[]|] ?]; reflexivity.
Qed.

End Candidate.

(** ** The loop *)

Section Loop.

Context {World : Type} (env : Env World).

(** What one iteration adds to [captions] and to the log. *)
Lemma body_inv page idx (el : gmap string string) (st : St World) r st1 :
  body env page idx el st = (r, st1) ->
  exists new evs,
    captions st1 = captions st ++ new /\
    log st1 = log st ++ evs /\
    gets evs = option_list (resolved page el) /\
    map url new `sublist_of` gets evs /\
    match r with
    | Ok Next => new = [] \/ (length (captions st1) < 5)%nat
    | Ok Stop => (5 <= length (captions st1))%nat /\ length new = 1%nat
    | Raise e => new = [] /\ (extract el = Raise e \/ is_Exception e = false)
    end.
Proof.
  intros Hb. unfold resolved.
  destruct (candidate page el) as [[u|]|e] eqn:Hc.
  - rewrite (body_try _ _ _ _ _ _ Hc) in Hb. unfold try_except in Hb.
    destruct (attempt_cases env u st)
      as [(e & w' & Hf & Ha) | [(w' & Ha) | (c & w' & Ha)]]; rewrite Ha in Hb.
    + destruct (is_Exception e) eqn:He.
      * unfold handler, bind, emit in Hb. cbn in Hb. inversion Hb; subst; clear Hb.
        exists [], [EvGet u; EvPrintError idx e]. cbn.
        rewrite app_nil_r, <- app_assoc. repeat split; auto. apply sublist_nil_l.
      * inversion Hb; subst; clear Hb. exists [], [EvGet u]. cbn.
        rewrite app_nil_r. repeat split; auto. apply sublist_nil_l.
    + inversion Hb; subst; clear Hb. exists [], [EvGet u]. cbn.
      rewrite app_nil_r. repeat split; auto. apply sublist_nil_l.
    + exists [{| url := u; caption := c |}], [EvGet u].
      destruct (5 <=? _)%nat eqn:E; inversion Hb; subst; clear Hb;
        cbn [captions log gets omap map option_list];
        do 4 (split; [reflexivity|]).
      * apply Nat.leb_le in E. split; [exact E | reflexivity].
      * apply Nat.leb_gt in E. right. exact E.
  - rewrite (body_skip _ _ _ _ _ Hc) in Hb. inversion Hb; subst; clear Hb.
    exists [], []. cbn. rewrite !app_nil_r. repeat split; auto.
  - rewrite (body_raise _ _ _ _ _ _ Hc) in Hb. inversion Hb; subst; clear Hb.
    exists [], []. cbn. rewrite !app_nil_r. repeat split; auto.
    left. apply (candidate_raise page), Hc.
Qed.

Lemma resolved_refs_cons page (el : gmap string string) rest :
  resolved_refs page (el :: rest) = option_list (resolved page el) ++ resolved_refs page rest.
Proof. unfold resolved_refs. cbn. destruct (resolved page el); reflexivity. Qed.

Lemma gets_app evs1 evs2 : gets (evs1 ++ evs2) = gets evs1 ++ gets evs2.
Proof. apply omap_app. Qed.

(** What the whole loop adds: the new captions follow the order of the
    requests, and the requests are made for the resolved references, in
    document order, without a gap. *)
Lemma loop_inv page els : forall idx (st : St World) r st1,
  loop env page idx els st = (r, st1) ->
  exists new evs,
    captions st1 = captions st ++ new /\
    log st1 = log st ++ evs /\
    map url new `sublist_of` gets evs /\
    gets evs `prefix_of` resolved_refs page els.
Proof.
  induction els as [|el rest IH]; intros idx st r st1 H.
  - cbn in H. inversion H; subst; clear H. exists [], []. rewrite !app_nil_r.
    repeat split; auto.
  - rewrite loop_cons in H.
    destruct (body env page idx el st) as [rb stb] eqn:Hb.
    destruct (body_inv _ _ _ _ _ _ Hb) as (new1 & evs1 & Hc1 & Hl1 & Hg1 & Hs1 & _).
    rewrite resolved_refs_cons, <- Hg1.
    assert (Hdone : st1 = stb ->
      exists new evs, captions st1 = captions st ++ new /\ log st1 = log st ++ evs /\
        map url new `sublist_of` gets evs /\
        gets evs `prefix_of` gets evs1 ++ resolved_refs page rest).
    { intros ->. exists new1, evs1. repeat split; auto. apply prefix_app_r. reflexivity. }
    destruct rb as [[|]|e].
    + destruct (IH _ _ _ _ H) as (new2 & evs2 & Hc2 & Hl2 & Hs2 & Hp2).
      exists (new1 ++ new2), (evs1 ++ evs2).
      rewrite Hc2, Hc1, Hl2, Hl1, !app_assoc, map_app, gets_app.
      repeat split; auto.
      * apply sublist_app; assumption.
      * apply prefix_app, Hp2.
    + inversion H; subst; clear H. apply Hdone. reflexivity.
    + inversion H; subst; clear H. apply Hdone. reflexivity.
Qed.

(** The quota: from fewer than five captions, the loop ends with at most five. *)
Lemma loop_quota page els : forall idx (st : St World),
  (length (captions st) < 5)%nat ->
  (length (captions (snd (loop env page idx els st))) <= 5)%nat.
Proof.
  induction els as [|el rest IH]; intros idx st Hlt.
  - cbn. lia.
  - rewrite loop_cons.
    destruct (body env page idx el st) as [rb stb] eqn:Hb.
    destruct (body_inv _ _ _ _ _ _ Hb) as (new1 & evs1 & Hc1 & _ & _ & _ & Hr).
    destruct rb as [[|]|e].
    + apply IH. destruct Hr as [-> | Hr]; [|exact Hr].
      rewrite Hc1, app_nil_r. exact Hlt.
    + cbn. destruct Hr as [_ Hn]. rewrite Hc1, length_app, Hn. lia.
    + cbn. destruct Hr as [-> _]. rewrite Hc1, app_nil_r. lia.
Qed.

(** After the [break], nothing that follows is looked at. *)
Lemma loop_stops page pre rest : forall idx (st st1 : St World),
  (length (captions st) < 5)%nat ->
  loop env page idx pre st = (Ok tt, st1) ->
  (5 <= length (captions st1))%nat ->
  loop env page idx (pre ++ rest) st = (Ok tt, st1).
Proof.
  induction pre as [|el pre IH]; intros idx st st1 Hlt H Hfull.
  - cbn in H. inversion H; subst. lia.
  - rewrite <- app_comm_cons, loop_cons. rewrite loop_cons in H.
    destruct (body env page idx el st) as [rb stb] eqn:Hb.
    destruct (body_inv _ _ _ _ _ _ Hb) as (new1 & evs1 & Hc1 & _ & _ & _ & Hr).
    destruct rb as [[|]|e]; [|exact H|discriminate].
    apply IH; auto.
    destruct Hr as [-> | Hr]; [|exact Hr].
    rewrite Hc1, app_nil_r. exact Hlt.
Qed.

(** An [Exception] that leaves the loop was raised by the extraction. *)
Lemma loop_raise page els : forall idx (st st1 : St World) e,
  loop env page idx els st = (Raise e, st1) ->
  is_Exception e = true ->
  exists el, el ∈ els /\ extract el = Raise e.
Proof.
  induction els as [|el rest IH]; intros idx st st1 e H He.
  - discriminate.
  - rewrite loop_cons in H.
    destruct (body env page idx el st) as [rb stb] eqn:Hb.
    destruct (body_inv _ _ _ _ _ _ Hb) as (new1 & evs1 & _ & _ & _ & _ & Hr).
    destruct rb as [[|]|e'].
    + destruct (IH _ _ _ _ H He) as (el' & Hin & Hex).
      exists el'. split; [right; exact Hin | exact Hex].
    + discriminate.
    + inversion H; subst; clear H. destruct Hr as [_ [Hex | Hne]]; [|congruence].
      exists el. split; [left | exact Hex].
Qed.

End Loop.

(** ** The pipeline as a whole *)

Section Whole.

Context {World : Type} (env : Env World).

Lemma pipeline_page_ok page w resp w1 :
  requests_get env page None w = (Ok resp, w1) ->
  pipeline env page (init w) =
  loop env page 1 (find_all_img env (text resp))
    {| world := w1; captions := [];
       log := [EvPrintFound (length (find_all_img env (text resp)))] |}.
Proof.
  intros H. unfold pipeline, bind, call, emit, init. cbn. rewrite H. reflexivity.
Qed.

(** A failure of the page request leaves [url_caption] as it is. *)
Lemma pipeline_page_failure page w e w1 :
  requests_get env page None w = (Raise e, w1) ->
  pipeline env page (init w) = (Raise e, {| world := w1; captions := []; log := [] |}).
Proof.
  intros H. unfold pipeline, bind, call, init. cbn. rewrite H. reflexivity.
Qed.

Lemma url_caption_page_failure (form : gmap string string) page w e w1 :
  form !! "url_addr" = Some page ->
  requests_get env page None w = (Raise e, w1) ->
  fst (url_caption env POST form w) = Raise e.
Proof.
  intros Hf H. unfold url_caption, form_get. rewrite Hf.
  rewrite (pipeline_page_failure _ _ _ _ H). reflexivity.
Qed.

(** An element whose only attribute is an empty [srcset] stops the loop
    with the [IndexError] of line 126. *)
Lemma loop_empty_srcset page idx rest (st : St World) :
  loop env page idx (img_empty_srcset :: rest) st = (Raise IndexError, st).
Proof.
  rewrite loop_cons. rewrite (body_raise env page idx _ st IndexError); reflexivity.
Qed.

Lemma pipeline_quota page w :
  (length (captions (snd (pipeline env page (init w)))) <= 5)%nat.
Proof.
  destruct (requests_get env page None w) as [[resp|e] w1] eqn:H.
  - rewrite (pipeline_page_ok _ _ _ _ H). apply loop_quota. cbn. lia.
  - rewrite (pipeline_page_failure _ _ _ _ H). cbn. lia.
Qed.

Lemma url_caption_quota method (form : gmap string string) w :
  (length (captions (snd (url_caption env method form w))) <= 5)%nat /\
  (forall l, fst (url_caption env method form w) = Ok l -> (length l <= 5)%nat).
Proof.
  unfold url_caption. destruct method; [cbn; split; [lia | intros l [= <-]; cbn; lia]|].
  destruct (form_get form "url_addr") as [page|e];
    [|cbn; split; [lia | discriminate]].
  pose proof (pipeline_quota page w) as Hq.
  destruct (pipeline env page (init w)) as [[[]|e] st]; cbn in *.
  - split; [exact Hq | intros l [= <-]; exact Hq].
  - split; [exact Hq | discriminate].
Qed.

End Whole.

(** * The claims *)

(** C1, at the failing input: the root-relative reference [/a.jpg], which
    does not contain [.svg], resolved against the page
    [https://example.com/blog]. Line 142 puts it behind the whole page
    address, trailing slashes removed, and yields
    [https://example.com/blog/a.jpg]; the claim asks for the origin
    [https://example.com] followed by the reference,
    [https://example.com/a.jpg]. *)
Theorem C1_page_path_is_kept :
  root_relative "/a.jpg" = true /\
  PyStr.contains "/a.jpg" ".svg" = false /\
  PyStr.rstrip "https://example.com/blog" "/" = "https://example.com/blog" /\
  resolve "https://example.com/blog" "/a.jpg" = Some "https://example.com/blog/a.jpg" /\
  resolve "https://example.com/blog" "/a.jpg" <> Some ("https://example.com" +:+ "/a.jpg").
Proof.
  split; [reflexivity|]. split; [reflexivity|]. split; [reflexivity|].
  split; [reflexivity | discriminate].
Qed.

(** C2: for the markup [<img src="/a.jpg"><img src="http://x/b.svg">
    <img data-src="//cdn/c.jpg">] on the page [https://site.com], lines
    124-144 let exactly [https://site.com/a.jpg] and [https://cdn/c.jpg]
    through, in this order, and the second element is dropped there. A run
    over this page that returns has requested an image from these two
    addresses, in this order, and from no other, whatever the collaborators
    answered; a run that does not return was ended by an exception that is
    not an [Exception], during the first or the second of these requests.
    The [.svg] address is never requested. *)
Theorem C2_end_to_end {World : Type} (env : Env World) w resp w1 :
  requests_get env "https://site.com" None w = (Ok resp, w1) ->
  find_all_img env (text resp) = markup3 ->
  map (candidate "https://site.com") markup3 =
    [Ok (Some "https://site.com/a.jpg"); Ok None; Ok (Some "https://cdn/c.jpg")] /\
  resolved_refs "https://site.com" markup3 = ["https://site.com/a.jpg"; "https://cdn/c.jpg"] /\
  match pipeline env "https://site.com" (init w) with
  | (Ok _, st) => gets (log st) = ["https://site.com/a.jpg"; "https://cdn/c.jpg"]
  | (Raise e, st) =>
      is_Exception e = false /\
      (gets (log st) = ["https://site.com/a.jpg"] \/
       gets (log st) = ["https://site.com/a.jpg"; "https://cdn/c.jpg"])
  end /\
  gets (log (snd (pipeline env "https://site.com" (init w))))
    `prefix_of` ["https://site.com/a.jpg"; "https://cdn/c.jpg"] /\
  "http://x/b.svg" ∉ gets (log (snd (pipeline env "https://site.com" (init w)))).
Proof.
  intros Hget Hfind.
  assert (Hrefs : resolved_refs "https://site.com" markup3 =
                  ["https://site.com/a.jpg"; "https://cdn/c.jpg"]) by reflexivity.
  assert (Hrun :
    match pipeline env "https://site.com" (init w) with
    | (Ok _, st) => gets (log st) = ["https://site.com/a.jpg"; "https://cdn/c.jpg"]
    | (Raise e, st) =>
        is_Exception e = false /\
        (gets (log st) = ["https://site.com/a.jpg"] \/
         gets (log st) = ["https://site.com/a.jpg"; "https://cdn/c.jpg"])
    end).
  { rewrite (pipeline_page_ok env _ _ _ _ Hget), Hfind. unfold markup3.
    cbn [length]. set (st0 := {| world := w1; captions := []; log := [EvPrintFound 3] |}).
    rewrite loop_cons.
    destruct (body env "https://site.com" 1 {[ "src" := "/a.jpg" ]} st0) as [r1 s1] eqn:Hb1.
    destruct (body_inv env _ _ _ _ _ _ Hb1) as (n1 & e1 & Hc1 & Hl1 & Hg1 & Hs1 & Hr1).
    change (resolved "https://site.com" {[ "src" := "/a.jpg" ]})
      with (Some "https://site.com/a.jpg") in Hg1.
    cbn [option_list] in Hg1.
    assert (Hlog1 : gets (log s1) = ["https://site.com/a.jpg"]).
    { rewrite Hl1, gets_app, Hg1. reflexivity. }
    destruct r1 as [[|]|e].
    - rewrite loop_cons.
      rewrite (body_skip env "https://site.com" 2 {[ "src" := "http://x/b.svg" ]} s1)
        by reflexivity.
      rewrite loop_cons.
      destruct (body env "https://site.com" 3 {[ "data-src" := "//cdn/c.jpg" ]} s1)
        as [r3 s3] eqn:Hb3.
      destruct (body_inv env _ _ _ _ _ _ Hb3) as (n3 & e3 & Hc3 & Hl3 & Hg3 & Hs3 & Hr3).
      change (resolved "https://site.com" {[ "data-src" := "//cdn/c.jpg" ]})
        with (Some "https://cdn/c.jpg") in Hg3.
      cbn [option_list] in Hg3.
      assert (Hlog3 : gets (log s3) = ["https://site.com/a.jpg"; "https://cdn/c.jpg"]).
      { rewrite Hl3, gets_app, Hlog1, Hg3. reflexivity. }
      destruct r3 as [[|]|e]; [exact Hlog3 | exact Hlog3 |].
      destruct Hr3 as [_ [Hex | Hne]]; [discriminate Hex|]. auto.
    - exfalso. destruct Hr1 as [Hfull _]. rewrite Hc1 in Hfull. unfold st0 in Hfull.
      cbn [captions app] in Hfull.
      apply sublist_length in Hs1. rewrite length_map, Hg1 in Hs1. simpl in Hs1. lia.
    - destruct Hr1 as [_ [Hex | Hne]]; [discriminate Hex|]. auto. }
  assert (Hpre : gets (log (snd (pipeline env "https://site.com" (init w))))
                   `prefix_of` ["https://site.com/a.jpg"; "https://cdn/c.jpg"]).
  { rewrite (pipeline_page_ok env _ _ _ _ Hget), Hfind.
    destruct (loop env "https://site.com" 1 markup3 _) as [r st1] eqn:Hl.
    destruct (loop_inv env _ _ _ _ _ _ Hl) as (new & evs & _ & Hlog & _ & Hp).
    cbn [snd]. rewrite Hlog. cbn [log]. rewrite gets_app. cbn [gets omap app].
    rewrite <- Hrefs. exact Hp. }
  split; [reflexivity|]. split; [exact Hrefs|]. split; [exact Hrun|]. split; [exact Hpre|].
  intros Hin. destruct Hpre as [k Hk].
  assert (Hin' : "http://x/b.svg" ∈ ["https://site.com/a.jpg"; "https://cdn/c.jpg"]).
  { rewrite Hk. apply elem_of_app. left. exact Hin. }
  apply elem_of_cons in Hin' as [Hin' | Hin']; [discriminate|].
  apply elem_of_cons in Hin' as [Hin' | Hin']; [discriminate|].
  inversion Hin'.
Qed.

(** C3: a reference that contains [.svg] is never resolved, and the element
    it comes from is passed over without a request: the iteration leaves the
    state, log included, as it was, and the loop goes on with the next
    element. *)
Theorem C3_svg_never_resolved {World : Type} (env : Env World) page idx
    (el : gmap string string) rest (st : St World) raw :
  extract el = Ok (Some raw) ->
  PyStr.contains raw ".svg" = true ->
  resolve page raw = None /\
  resolved_refs page (el :: rest) = resolved_refs page rest /\
  body env page idx el st = (Ok Next, st) /\
  loop env page idx (el :: rest) st = loop env page (S idx) rest st.
Proof.
  intros Hex Hsvg.
  pose proof (resolve_svg page raw Hsvg) as Hres.
  assert (Hc : candidate page el = Ok None).
  { unfold candidate. rewrite Hex, Hres. destruct (negb _); reflexivity. }
  pose proof (body_skip env page idx el st Hc) as Hb.
  split; [exact Hres|]. split; [|split; [exact Hb|]].
  - rewrite resolved_refs_cons. unfold resolved. rewrite Hc. reflexivity.
  - rewrite loop_cons, Hb. reflexivity.
Qed.

(** C4: whatever the page and however many elements it has, [url_caption]
    ends with at most five entries in [captions], and hands at most five to
    the template; and once the loop has reached five entries over a first
    part of the elements, the elements after it change nothing: the run
    over all of them ends in the very same state, so none of them is
    requested or captioned. *)
Theorem C4_quota_and_early_stop {World : Type} (env : Env World) :
  (forall method (form : gmap string string) w,
     (length (captions (snd (url_caption env method form w))) <= 5)%nat /\
     (forall l, fst (url_caption env method form w) = Ok l -> (length l <= 5)%nat)) /\
  (forall page idx pre rest (st st1 : St World),
     (length (captions st) < 5)%nat ->
     loop env page idx pre st = (Ok tt, st1) ->
     length (captions st1) = 5%nat ->
     loop env page idx (pre ++ rest) st = (Ok tt, st1)).
Proof.
  split.
  - intros method form w. apply url_caption_quota.
  - intros page idx pre rest st st1 Hlt Hrun Hfull.
    apply loop_stops; [exact Hlt | exact Hrun | lia].
Qed.

(** C5: when the fetch, the decoding or the caption call of a candidate
    fails with an [Exception], the iteration ends normally, [captions] is
    as before, the failure is printed, and the loop goes on with the next
    element; and an [Exception] that does leave the loop is never one of
    these failures: it is the [IndexError] raised by the extraction of some
    element. *)
Theorem C5_stage_failures_absorbed {World : Type} (env : Env World) page :
  (forall idx (el : gmap string string) rest (st : St World) u e w',
     candidate page el = Ok (Some u) ->
     stage_fails env u (world st) e w' ->
     is_Exception e = true ->
     let st' := {| world := w'; captions := captions st;
                   log := log st ++ [EvGet u; EvPrintError idx e] |} in
     body env page idx el st = (Ok Next, st') /\
     loop env page idx (el :: rest) st = loop env page (S idx) rest st') /\
  (forall idx els (st st1 : St World) e,
     loop env page idx els st = (Raise e, st1) ->
     is_Exception e = true ->
     e = IndexError /\ exists el, el ∈ els /\ extract el = Raise IndexError).
Proof.
  split.
  - intros idx el rest st u e w' Hc Hf He st'.
    pose proof (body_absorbs env page idx el st u e w' Hc Hf He) as Hb.
    split; [exact Hb|]. rewrite loop_cons, Hb. reflexivity.
  - intros idx els st st1 e Hl He.
    destruct (loop_raise env page els idx st st1 e Hl He) as (el & Hin & Hex).
    destruct (extract_raise el e Hex) as [-> _]. eauto.
Qed.

(** C6: a candidate whose image decodes to a width and a height with a
    product below 200 adds nothing to [captions]: the iteration ends after
    the request and the decoding, nothing is printed, and the loop goes on
    with the next element. *)
Theorem C6_small_image_discarded {World : Type} (env : Env World) page idx
    (el : gmap string string) rest (st : St World) u r w1 img w2 :
  candidate page el = Ok (Some u) ->
  requests_get env u (Some 10%Z) (world st) = (Ok r, w1) ->
  Image_open env (content r) w1 = (Ok img, w2) ->
  (fst (size img) * snd (size img) < 200)%Z ->
  let st' := {| world := w2; captions := captions st; log := log st ++ [EvGet u] |} in
  body env page idx el st = (Ok Next, st') /\
  loop env page idx (el :: rest) st = loop env page (S idx) rest st'.
Proof.
  intros Hc Hget Hopen Hsmall st'.
  apply Z.ltb_lt in Hsmall.
  assert (Hb : body env page idx el st = (Ok Next, st')).
  { rewrite (body_try env _ _ _ _ _ Hc). unfold try_except.
    rewrite (attempt_small env u st r w1 img w2 Hget Hopen Hsmall). reflexivity. }
  split; [exact Hb|]. rewrite loop_cons, Hb. reflexivity.
Qed.

(** C7: the entries the loop adds to [captions] are added at the end, and
    their addresses, read in the order of [captions], form a subsequence of
    the resolved references of the elements read in document order; so it
    is for the [captions] of a whole run, over the elements found on the
    page. *)
Theorem C7_insertion_order {World : Type} (env : Env World) page :
  (forall idx els (st : St World),
     exists new,
       captions (snd (loop env page idx els st)) = captions st ++ new /\
       map url new `sublist_of` resolved_refs page els) /\
  (forall w,
     exists els,
       (els = [] \/
        exists resp w1, requests_get env page None w = (Ok resp, w1) /\
                        els = find_all_img env (text resp)) /\
       map url (captions (snd (pipeline env page (init w))))
         `sublist_of` resolved_refs page els).
Proof.
  assert (Hloop : forall idx els (st : St World),
     exists new,
       captions (snd (loop env page idx els st)) = captions st ++ new /\
       map url new `sublist_of` resolved_refs page els).
  { intros idx els st.
    destruct (loop env page idx els st) as [r st1] eqn:Hl.
    destruct (loop_inv env _ _ _ _ _ _ Hl) as (new & evs & Hc & _ & Hs & Hp).
    exists new. split; [exact Hc|].
    destruct Hp as [k ->]. apply sublist_inserts_r, Hs. }
  split; [exact Hloop|].
  intros w. destruct (requests_get env page None w) as [[resp|e] w1] eqn:H.
  - exists (find_all_img env (text resp)). split; [right; eauto|].
    rewrite (pipeline_page_ok env _ _ _ _ H).
    destruct (Hloop 1%nat (find_all_img env (text resp))
                {| world := w1; captions := [];
                   log := [EvPrintFound (length (find_all_img env (text resp)))] |})
      as (new & -> & Hs).
    exact Hs.
  - exists []. split; [left; reflexivity|].
    rewrite (pipeline_page_failure env _ _ _ _ H). reflexivity.
Qed.

(** C8, at the failing input [<img srcset="">]: the element yields no
    reference, and instead of being passed over it raises [IndexError],
    which ends the loop whatever the state and whatever follows. *)
Theorem C8_empty_srcset_raises {World : Type} (env : Env World) page idx rest
    (st : St World) :
  extract img_empty_srcset = Raise IndexError /\
  loop env page idx (img_empty_srcset :: rest) st = (Raise IndexError, st).
Proof.
  split; [reflexivity | apply loop_empty_srcset].
Qed.

(** C9, at the failing input: the page request succeeds, the page holds
    [<img srcset="">], and [url_caption] ends with an [IndexError]: the
    page request is not the only place from which a failure reaches the
    caller. *)
Theorem C9_second_propagation_point :
  let form : gmap string string := {[ "url_addr" := "https://site.com" ]} in
  fst (requests_get (demo_env [img_empty_srcset]) "https://site.com" None 0%nat)
    = Ok {| content := "https://site.com"; text := "https://site.com" |} /\
  url_caption (demo_env [img_empty_srcset]) POST form 0%nat
    = (Raise IndexError, {| world := 1%nat; captions := []; log := [EvPrintFound 1] |}).
Proof.
  split; vm_compute; reflexivity.
Qed.

(** C10: a reference that starts with [http] and does not contain [.svg]
    is let through unchanged, whatever follows the four letters and
    whatever the page is. *)
Theorem C10_http_prefix_accepted page raw :
  PyStr.startswith raw "http" = true ->
  PyStr.contains raw ".svg" = false ->
  PyStr.startswith raw "/" = false /\
  resolve page raw = Some raw.
Proof.
  intros Hhttp Hsvg. split; [apply http_not_slash, Hhttp | apply resolve_http; assumption].
Qed.

(** * The claims at concrete inputs *)

Lemma C2_witness :
  requests_get (demo_env markup3) "https://site.com" None 0%nat
    = (Ok {| content := "https://site.com"; text := "https://site.com" |}, 1%nat) /\
  find_all_img (demo_env markup3) "https://site.com" = markup3 /\
  (map (candidate "https://site.com") markup3 =
     [Ok (Some "https://site.com/a.jpg"); Ok None; Ok (Some "https://cdn/c.jpg")] /\
   resolved_refs "https://site.com" markup3
     = ["https://site.com/a.jpg"; "https://cdn/c.jpg"] /\
   match pipeline (demo_env markup3) "https://site.com" (init 0%nat) with
   | (Ok _, st) => gets (log st) = ["https://site.com/a.jpg"; "https://cdn/c.jpg"]
   | (Raise e, st) =>
       is_Exception e = false /\
       (gets (log st) = ["https://site.com/a.jpg"] \/
        gets (log st) = ["https://site.com/a.jpg"; "https://cdn/c.jpg"])
   end /\
   gets (log (snd (pipeline (demo_env markup3) "https://site.com" (init 0%nat))))
     `prefix_of` ["https://site.com/a.jpg"; "https://cdn/c.jpg"] /\
   "http://x/b.svg" ∉ gets (log (snd (pipeline (demo_env markup3) "https://site.com" (init 0%nat))))).
Proof.
  split; [(vm_compute; reflexivity)|]. split; [(vm_compute; reflexivity)|].
  apply (C2_end_to_end (demo_env markup3) 0%nat
           {| content := "https://site.com"; text := "https://site.com" |} 1%nat);
    (vm_compute; reflexivity).
Defined.

Lemma C3_witness :
  extract (img_src "http://x/b.svg") = Ok (Some "http://x/b.svg") /\
  PyStr.contains "http://x/b.svg" ".svg" = true /\
  (resolve "https://site.com" "http://x/b.svg" = None /\
   resolved_refs "https://site.com" [img_src "http://x/b.svg"; sixth_image]
     = resolved_refs "https://site.com" [sixth_image] /\
   body (demo_env []) "https://site.com" 2 (img_src "http://x/b.svg") (init 0%nat)
     = (Ok Next, init 0%nat) /\
   loop (demo_env []) "https://site.com" 2 [img_src "http://x/b.svg"; sixth_image] (init 0%nat)
     = loop (demo_env []) "https://site.com" 3 [sixth_image] (init 0%nat)).
Proof.
  split; [(vm_compute; reflexivity)|]. split; [(vm_compute; reflexivity)|].
  apply (C3_svg_never_resolved (demo_env []) "https://site.com" 2
           (img_src "http://x/b.svg") [sixth_image] (init 0%nat) "http://x/b.svg");
    (vm_compute; reflexivity).
Defined.

Lemma C4_witness :
  let env := demo_env [] in
  let st1 := snd (loop env "https://site.com" 1 five_images (init 0%nat)) in
  (length (captions (init 0%nat)) < 5)%nat /\
  loop env "https://site.com" 1 five_images (init 0%nat) = (Ok tt, st1) /\
  length (captions st1) = 5%nat /\
  loop env "https://site.com" 1 (five_images ++ [sixth_image]) (init 0%nat) = (Ok tt, st1).
Proof.
  intros env st1.
  assert (H0 : (length (captions (init 0%nat)) < 5)%nat) by (vm_compute; lia).
  assert (H1 : loop env "https://site.com" 1 five_images (init 0%nat) = (Ok tt, st1))
    by (vm_compute; reflexivity).
  assert (H2 : length (captions st1) = 5%nat) by (vm_compute; reflexivity).
  split; [exact H0|]. split; [exact H1|]. split; [exact H2|].
  exact (proj2 (C4_quota_and_early_stop env)
           "https://site.com" 1%nat five_images [sixth_image] (init 0%nat) st1 H0 H1 H2).
Defined.

Lemma C5_witness :
  let env := demo_env [] in
  let page := "https://site.com" in
  let e := OtherException "ConnectTimeout" in
  let st' := {| world := 1%nat; captions := [];
                log := [EvGet "https://site.com/timeout.jpg"; EvPrintError 1 e] |} in
  (candidate page (img_src "/timeout.jpg") = Ok (Some "https://site.com/timeout.jpg") /\
   stage_fails env "https://site.com/timeout.jpg" 0%nat e 1%nat /\
   is_Exception e = true /\
   body env page 1 (img_src "/timeout.jpg") (init 0%nat) = (Ok Next, st') /\
   loop env page 1 [img_src "/timeout.jpg"; sixth_image] (init 0%nat)
     = loop env page 2 [sixth_image] st') /\
  (loop env page 1 [img_empty_srcset] (init 0%nat) = (Raise IndexError, init 0%nat) /\
   is_Exception IndexError = true /\
   IndexError = IndexError /\
   exists el, el ∈ [img_empty_srcset] /\ extract el = Raise IndexError).
Proof.
  intros env page e st'.
  assert (Hc : candidate page (img_src "/timeout.jpg")
               = Ok (Some "https://site.com/timeout.jpg")) by (vm_compute; reflexivity).
  assert (Hf : stage_fails env "https://site.com/timeout.jpg" (world (init 0%nat)) e 1%nat)
    by (apply fetch_fails; (vm_compute; reflexivity)).
  assert (Hl : loop env page 1 [img_empty_srcset] (init 0%nat)
               = (Raise IndexError, init 0%nat)) by (vm_compute; reflexivity).
  destruct (C5_stage_failures_absorbed env page) as [Habs Hraise].
  split.
  - split; [exact Hc|]. split; [exact Hf|]. split; [(vm_compute; reflexivity)|].
    exact (Habs 1%nat (img_src "/timeout.jpg") [sixth_image] (init 0%nat)
             "https://site.com/timeout.jpg" e 1%nat Hc Hf eq_refl).
  - split; [exact Hl|]. split; [(vm_compute; reflexivity)|].
    exact (Hraise 1%nat [img_empty_srcset] (init 0%nat) (init 0%nat) IndexError Hl eq_refl).
Defined.

Lemma C6_witness :
  let env := demo_env [] in
  let u := "http://a/pixel.gif" in
  let img := {| size := (1, 1)%Z; raster := u |} in
  let st' := {| world := 2%nat; captions := []; log := [EvGet u] |} in
  candidate "https://site.com" (img_src u) = Ok (Some u) /\
  requests_get env u (Some 10%Z) 0%nat = (Ok {| content := u; text := u |}, 1%nat) /\
  Image_open env u 1%nat = (Ok img, 2%nat) /\
  (fst (size img) * snd (size img) < 200)%Z /\
  body env "https://site.com" 1 (img_src u) (init 0%nat) = (Ok Next, st') /\
  loop env "https://site.com" 1 [img_src u; sixth_image] (init 0%nat)
    = loop env "https://site.com" 2 [sixth_image] st'.
Proof.
  intros env u img st'.
  split; [(vm_compute; reflexivity)|]. split; [(vm_compute; reflexivity)|]. split; [(vm_compute; reflexivity)|].
  split; [(vm_compute; reflexivity)|].
  apply (C6_small_image_discarded env "https://site.com" 1 (img_src u) [sixth_image]
           (init 0%nat) u {| content := u; text := u |} 1%nat img 2%nat);
    (vm_compute; reflexivity).
Defined.

Lemma C10_witness :
  PyStr.startswith "httpfoo" "http" = true /\
  PyStr.contains "httpfoo" ".svg" = false /\
  PyStr.startswith "httpfoo" "/" = false /\
  resolve "https://site.com" "httpfoo" = Some "httpfoo".
Proof.
  split; [(vm_compute; reflexivity)|]. split; [(vm_compute; reflexivity)|].
  apply (C10_http_prefix_accepted "https://site.com" "httpfoo"); (vm_compute; reflexivity).
Defined.

(** * More on resolution and on runs *)

(** ** Resolution *)

Lemma startswith_slash_of_slash2 raw :
  PyStr.startswith raw "//" = true -> PyStr.startswith raw "/" = true.
Proof.
  intros H. destruct (PyStr.startswith raw "/") eqn:E; [reflexivity|].
  rewrite (startswith_slash2_slash _ E) in H. discriminate.
Qed.

Lemma rstrip_cons_ne a s c :
  Ascii.eqb a c = false -> PyStr.rstrip (String a s) c = String a (PyStr.rstrip s c).
Proof.
  intros H. cbn [PyStr.rstrip]. rewrite H. destruct (PyStr.rstrip s c); reflexivity.
Qed.

Lemma rstrip_http page :
  PyStr.startswith page "http" = true ->
  exists rest, PyStr.rstrip page "/" = "http" +:+ rest.
Proof.
  intros H.
  apply startswith_cons_inv in H as (s1 & -> & H).
  apply startswith_cons_inv in H as (s2 & -> & H).
  apply startswith_cons_inv in H as (s3 & -> & H).
  apply startswith_cons_inv in H as (s4 & -> & _).
  exists (PyStr.rstrip s4 "/").
  rewrite !rstrip_cons_ne by reflexivity. reflexivity.
Qed.

Lemma endswith_app p s : PyStr.endswith (p +:+ s) s = true.
Proof.
  induction p as [|a p IH].
  - change ("" +:+ s) with s.
    destruct s; simpl; rewrite ?Ascii.eqb_refl, ?String.eqb_refl; reflexivity.
  - change (String a p +:+ s) with (String a (p +:+ s)).
    cbn [PyStr.endswith]. rewrite IH. apply orb_true_r.
Qed.

(** The three shapes of a resolved reference. *)
Lemma resolve_some page raw u :
  resolve page raw = Some u ->
  PyStr.contains raw ".svg" = false /\
  (u = "https:" +:+ raw \/
   (PyStr.startswith raw "/" = true /\ u = PyStr.rstrip page "/" +:+ raw) \/
   (PyStr.startswith raw "http" = true /\ u = raw)).
Proof.
  unfold resolve. destruct (PyStr.contains raw ".svg") eqn:Hsvg.
  { rewrite orb_true_r. discriminate. }
  rewrite (not_contains_not_endswith _ _ Hsvg). cbn [orb].
  destruct (PyStr.startswith raw "//"); [intros [= <-]; auto|].
  destruct (PyStr.startswith raw "/"); [intros [= <-]; auto|].
  destruct (PyStr.startswith raw "http"); cbn [negb]; [intros [= <-]; auto|discriminate].
Qed.

Lemma resolve_some_http page raw u :
  PyStr.startswith page "http" = true ->
  resolve page raw = Some u ->
  PyStr.startswith u "http" = true /\ PyStr.endswith u raw = true.
Proof.
  intros Hp H. apply resolve_some in H as [_ [-> | [[_ ->] | [Hh ->]]]].
  - split; [reflexivity | apply endswith_app].
  - destruct (rstrip_http page Hp) as [rest ->]. split; [reflexivity | apply endswith_app].
  - split; [exact Hh|]. apply (endswith_app "" raw).
Qed.

(** What does not contain [.svg] before it is put behind a prefix without
    [.svg] does not contain it afterwards, when it starts with a slash. *)
Lemma contains_svg_app a b :
  PyStr.contains a ".svg" = false ->
  PyStr.contains b ".svg" = false ->
  PyStr.startswith b "/" = true ->
  PyStr.contains (a +:+ b) ".svg" = false.
Proof.
  intros Ha Hb Hs. apply startswith_cons_inv in Hs as (b' & -> & _).
  induction a as [|c a IH].
  - exact Hb.
  - cbn [PyStr.contains] in Ha. apply orb_false_iff in Ha as [Hc Ha].
    change (String c a +:+ String "/" b') with (String c (a +:+ String "/" b')).
    cbn [PyStr.contains]. rewrite (IH Ha), orb_false_r.
    destruct a as [|c1 [|c2 [|c3 a]]]; simpl in Hc |- *;
      repeat match goal with
             | |- context [Ascii.eqb ?x ?y] => destruct (Ascii.eqb x y)
             end; simpl in *; congruence.
Qed.

Lemma startswith_app_l a k sub :
  PyStr.startswith a sub = true -> PyStr.startswith (a +:+ k) sub = true.
Proof.
  revert a. induction sub as [|b sub IH]; intros a H; [reflexivity|].
  apply startswith_cons_inv in H as (a' & -> & H).
  change (String b a' +:+ k) with (String b (a' +:+ k)).
  cbn [PyStr.startswith]. rewrite Ascii.eqb_refl. exact (IH _ H).
Qed.

Lemma contains_app_l a k sub :
  PyStr.contains a sub = true -> PyStr.contains (a +:+ k) sub = true.
Proof.
  induction a as [|c a IH]; cbn [PyStr.contains]; intros H.
  - rewrite orb_false_r in H. destruct sub; [|discriminate].
    destruct k; reflexivity.
  - apply orb_true_iff in H as [H | H].
    + pose proof (startswith_app_l (String c a) k sub H) as H'.
      change (String c a +:+ k) with (String c (a +:+ k)) in *.
      cbn [PyStr.contains]. rewrite H'. reflexivity.
    + change (String c a +:+ k) with (String c (a +:+ k)).
      cbn [PyStr.contains]. rewrite (IH H). apply orb_true_r.
Qed.

Lemma rstrip_prefix s c : exists k, s = PyStr.rstrip s c +:+ k.
Proof.
  induction s as [|a s [k IH]]; [exists ""; reflexivity|].
  cbn [PyStr.rstrip]. destruct (PyStr.rstrip s c) as [|b r] eqn:E.
  - destruct (Ascii.eqb a c).
    + exists (String a s). reflexivity.
    + exists s. reflexivity.
  - exists k. change (String a (String b r) +:+ k) with (String a (String b r +:+ k)).
    rewrite <- IH. reflexivity.
Qed.

Lemma rstrip_no_svg page :
  PyStr.contains page ".svg" = false ->
  PyStr.contains (PyStr.rstrip page "/") ".svg" = false.
Proof.
  intros H. destruct (PyStr.contains (PyStr.rstrip page "/") ".svg") eqn:E; [|reflexivity].
  destruct (rstrip_prefix page "/") as [k Hk].
  apply (contains_app_l _ k) in E. rewrite <- Hk in E. congruence.
Qed.

Lemma resolve_some_no_svg page raw u :
  PyStr.contains page ".svg" = false ->
  resolve page raw = Some u ->
  PyStr.contains u ".svg" = false.
Proof.
  intros Hpage H. apply resolve_some in H as [Hsvg [-> | [[Hs ->] | [_ ->]]]].
  - exact Hsvg.
  - apply contains_svg_app; [apply rstrip_no_svg, Hpage | exact Hsvg | exact Hs].
  - exact Hsvg.
Qed.

Lemma resolved_inv page (el : gmap string string) u :
  resolved page el = Some u ->
  exists raw, extract el = Ok (Some raw) /\ raw <> "" /\ resolve page raw = Some u.
Proof.
  unfold resolved. destruct (candidate page el) as [[v|]|e] eqn:Hc; try discriminate.
  intros [= ->]. apply candidate_some, Hc.
Qed.

Lemma resolved_refs_length page els : (length (resolved_refs page els) <= length els)%nat.
Proof.
  induction els as [|el els IH]; [reflexivity|].
  rewrite resolved_refs_cons, length_app. cbn [length].
  destruct (resolved page el); cbn; lia.
Qed.

(** ** Requests and captions of a run *)

Section Runs.

Context {World : Type} (env : Env World).

(** Every request of the loop is for a reference resolved from one of the
    elements, and every new caption is for an address that was requested. *)
Lemma loop_origin page els idx (st : St World) :
  exists new evs,
    captions (snd (loop env page idx els st)) = captions st ++ new /\
    log (snd (loop env page idx els st)) = log st ++ evs /\
    (forall u, u ∈ gets evs ->
       exists el raw, el ∈ els /\ extract el = Ok (Some raw) /\ resolve page raw = Some u) /\
    (forall x, x ∈ new -> url x ∈ gets evs) /\
    (length new <= length (gets evs) <= length els)%nat.
Proof.
  destruct (loop env page idx els st) as [r st1] eqn:Hl.
  destruct (loop_inv env _ _ _ _ _ _ Hl) as (new & evs & Hc & Hlog & Hs & Hp).
  exists new, evs. cbn [snd]. split; [exact Hc|]. split; [exact Hlog|].
  split; [|split].
  - intros u Hu. apply (elem_of_prefix _ _ _ Hu) in Hp.
    apply list_elem_of_omap in Hp as (el & Hin & Hr).
    apply resolved_inv in Hr as (raw & Hex & _ & Hres). eauto.
  - intros x Hx. apply (elem_of_sublist _ _ (url x)) in Hs; [exact Hs|].
    apply list_elem_of_fmap. eauto.
  - apply sublist_length in Hs. apply prefix_length in Hp.
    rewrite length_map in Hs. split; [exact Hs|].
    etrans; [exact Hp|]. apply resolved_refs_length.
Qed.

End Runs.

Section RunsOfUrlCaption.

Context {World : Type} (env : Env World).

Lemma url_caption_post (form : gmap string string) page w :
  form !! "url_addr" = Some page ->
  snd (url_caption env POST form w) = snd (pipeline env page (init w)) /\
  (forall l, fst (url_caption env POST form w) = Ok l ->
             l = captions (snd (pipeline env page (init w)))).
Proof.
  intros Hf. unfold url_caption, form_get. rewrite Hf.
  destruct (pipeline env page (init w)) as [[[]|e] st]; cbn.
  - split; [reflexivity | intros l [= <-]; reflexivity].
  - split; [reflexivity | discriminate].
Qed.

(** The requests and the captions of a whole run. *)
Lemma pipeline_origin page w :
  let st := snd (pipeline env page (init w)) in
  (forall u, u ∈ gets (log st) -> exists raw, resolve page raw = Some u) /\
  (forall x, x ∈ captions st -> url x ∈ gets (log st)) /\
  (length (captions st) <= length (gets (log st)))%nat.
Proof.
  destruct (requests_get env page None w) as [[resp|e] w1] eqn:H.
  - rewrite (pipeline_page_ok env _ _ _ _ H).
    set (els := find_all_img env (text resp)).
    set (st0 := {| world := w1; captions := []; log := [EvPrintFound (length els)] |}).
    destruct (loop_origin env page els 1 st0) as (new & evs & Hc & Hl & Hg & Hn & Hlen).
    cbn zeta. rewrite Hc, Hl. unfold st0. cbn [captions log app].
    change (gets (EvPrintFound (length els) :: evs)) with (gets evs).
    split; [|split].
    + intros u Hu. destruct (Hg u Hu) as (el & raw & _ & _ & Hr). eauto.
    + exact Hn.
    + lia.
  - rewrite (pipeline_page_failure env _ _ _ _ H). cbn.
    split; [|split]; [intros u Hu; inversion Hu | intros x Hx; inversion Hx | lia].
Qed.

(** Nothing is requested for a list of elements that are all passed over. *)
Lemma loop_all_skipped page els : forall idx (st : St World),
  (forall el, el ∈ els -> candidate page el = Ok None) ->
  loop env page idx els st = (Ok tt, st).
Proof.
  induction els as [|el rest IH]; intros idx st H; [reflexivity|].
  rewrite loop_cons, (body_skip env page idx el st).
  - apply IH. intros el' Hin. apply H. right. exact Hin.
  - apply H. left.
Qed.

Lemma body_success page idx (el : gmap string string) (st : St World) u r w1 img w2 c w3 :
  candidate page el = Ok (Some u) ->
  requests_get env u (Some 10%Z) (world st) = (Ok r, w1) ->
  Image_open env (content r) w1 = (Ok img, w2) ->
  (fst (size img) * snd (size img) <? 200)%Z = false ->
  captioner env img w2 = (Ok c, w3) ->
  body env page idx el st =
  (Ok (if (5 <=? length (captions st ++ [{| url := u; caption := c |}]))%nat then Stop else Next),
   {| world := w3;
      captions := captions st ++ [{| url := u; caption := c |}];
      log := log st ++ [EvGet u] |}).
Proof.
  intros Hc H1 H2 H3 H4. rewrite (body_try env _ _ _ _ _ Hc). unfold try_except.
  rewrite (attempt_success env u st r w1 img w2 c w3 H1 H2 H3 H4). reflexivity.
Qed.

(** What one iteration prints. *)
Lemma body_prints page idx (el : gmap string string) (st : St World) r st1 :
  body env page idx el st = (r, st1) ->
  exists evs,
    log st1 = log st ++ evs /\
    forall i e, (i, e) ∈ print_errors evs ->
      i = idx /\ is_Exception e = true /\
      exists u w', resolved page el = Some u /\ stage_fails env u (world st) e w'.
Proof.
  intros Hb. unfold resolved.
  destruct (candidate page el) as [[u|]|e] eqn:Hc.
  - rewrite (body_try env _ _ _ _ _ Hc) in Hb. unfold try_except in Hb.
    destruct (attempt_cases env u st)
      as [(e & w' & Hf & Ha) | [(w' & Ha) | (c & w' & Ha)]]; rewrite Ha in Hb.
    + destruct (is_Exception e) eqn:He.
      * unfold handler, bind, emit in Hb. cbn in Hb. inversion Hb; subst; clear Hb.
        exists [EvGet u; EvPrintError idx e]. rewrite <- app_assoc.
        split; [reflexivity|]. cbn. intros i e' Hin.
        apply list_elem_of_singleton in Hin. inversion Hin; subst. eauto 6.
      * inversion Hb; subst; clear Hb. exists [EvGet u].
        split; [reflexivity|]. cbn. intros i e' Hin. inversion Hin.
    + inversion Hb; subst; clear Hb. exists [EvGet u].
      split; [reflexivity|]. cbn. intros i e' Hin. inversion Hin.
    + inversion Hb; subst; clear Hb. exists [EvGet u].
      split; [reflexivity|]. cbn. intros i e' Hin. inversion Hin.
  - rewrite (body_skip env _ _ _ _ Hc) in Hb. inversion Hb; subst; clear Hb.
    exists []. rewrite app_nil_r. split; [reflexivity|]. intros i e' Hin. inversion Hin.
  - rewrite (body_raise env _ _ _ _ _ Hc) in Hb. inversion Hb; subst; clear Hb.
    exists []. rewrite app_nil_r. split; [reflexivity|]. intros i e' Hin. inversion Hin.
Qed.

Lemma print_errors_app evs1 evs2 :
  print_errors (evs1 ++ evs2) = print_errors evs1 ++ print_errors evs2.
Proof. apply omap_app. Qed.

Lemma loop_prints page els : forall idx (st : St World) r st1,
  loop env page idx els st = (r, st1) ->
  exists evs,
    log st1 = log st ++ evs /\
    forall i e, (i, e) ∈ print_errors evs ->
      (idx <= i < idx + length els)%nat /\ is_Exception e = true /\
      exists el u, els !! (i - idx)%nat = Some el /\ resolved page el = Some u.
Proof.
  induction els as [|el rest IH]; intros idx st r st1 H.
  - cbn in H. inversion H; subst. exists []. rewrite app_nil_r.
    split; [reflexivity|]. intros i e Hin. inversion Hin.
  - rewrite loop_cons in H.
    destruct (body env page idx el st) as [rb stb] eqn:Hb.
    destruct (body_prints _ _ _ _ _ _ Hb) as (evs1 & Hl1 & Hp1).
    assert (Hhere : forall i e, (i, e) ∈ print_errors evs1 ->
      (idx <= i < idx + length (el :: rest))%nat /\ is_Exception e = true /\
      exists el' u, (el :: rest) !! (i - idx)%nat = Some el' /\ resolved page el' = Some u).
    { intros i e Hin. destruct (Hp1 i e Hin) as (-> & He & u & w' & Hr & _).
      cbn [length]. split; [lia|]. split; [exact He|].
      exists el, u. rewrite Nat.sub_diag. split; [reflexivity | exact Hr]. }
    destruct rb as [[|]|e'].
    + destruct (IH _ _ _ _ H) as (evs2 & Hl2 & Hp2).
      exists (evs1 ++ evs2). rewrite Hl2, Hl1, app_assoc. split; [reflexivity|].
      intros i e Hin. rewrite print_errors_app in Hin.
      apply elem_of_app in Hin as [Hin | Hin]; [apply Hhere, Hin|].
      destruct (Hp2 i e Hin) as (Hi & He & el' & u & Hlk & Hr).
      cbn [length]. split; [lia|]. split; [exact He|].
      exists el', u. split; [|exact Hr].
      replace (i - idx)%nat with (S (i - S idx)) by lia. exact Hlk.
    + inversion H; subst. exists evs1. split; [exact Hl1 | exact Hhere].
    + inversion H; subst. exists evs1. split; [exact Hl1 | exact Hhere].
Qed.

End RunsOfUrlCaption.

(** ** The exception of line 126 *)

Lemma chars_nonempty s : Forall (fun c => c <> "") (PyStr.chars s).
Proof.
  induction s as [|a s IH]; cbn [PyStr.chars]; [constructor|]. cbv zeta.
  destruct s as [|b s']; [repeat constructor; discriminate|].
  destruct (PyStr.is_continuation b).
  - destruct (PyStr.chars (String b s')) as [|c rest].
    + repeat constructor. discriminate.
    + inversion IH; subst. constructor; [discriminate | assumption].
  - constructor; [discriminate | exact IH].
Qed.

Lemma append_not_empty w c : c <> "" -> w +:+ c <> "".
Proof. destruct w; [intros H; exact H | discriminate]. Qed.

Lemma split_from_nil cs : forall w,
  Forall (fun c => c <> "") cs ->
  PyStr.split_from cs w = [] <-> w = "" /\ forallb PyStr.isspace cs = true.
Proof.
  induction cs as [|c cs IH]; intros w Hne; cbn [PyStr.split_from forallb].
  - destruct (String.eqb_spec w ""); split; try tauto; try discriminate;
      try (intros [? _]; contradiction).
  - inversion Hne as [|? ? Hc Hcs]; subst.
    destruct (PyStr.isspace c); cbn [andb].
    + destruct (String.eqb_spec w "") as [-> | Hw].
      * rewrite (IH "" Hcs). tauto.
      * split; [discriminate | intros [? _]; contradiction].
    + rewrite (IH _ Hcs). split; [|intros [_ ?]; discriminate].
      intros [Hw _]. destruct (append_not_empty w c Hc Hw).
Qed.

Lemma split_nil s : PyStr.split s = [] <-> all_space s = true.
Proof.
  unfold PyStr.split, all_space. rewrite (split_from_nil _ "" (chars_nonempty s)). tauto.
Qed.

(** Whitespace beyond ASCII: a [srcset] that is a no-break space has no
    entry, and a no-break space ends the first entry like any space. *)
Lemma split_unicode_space :
  PyStr.split nbsp = [] /\
  PyStr.split ("http://a/1.jpg" +:+ nbsp +:+ "2x") = ["http://a/1.jpg"; "2x"] /\
  PyStr.split (" a.jpg" +:+ ideographic_space +:+ "1x, b.jpg 2x ")
    = ["a.jpg"; "1x,"; "b.jpg"; "2x"] /\
  extract {[ "srcset" := nbsp ]} = Raise IndexError /\
  extract {[ "srcset" := "http://a/1.jpg" +:+ nbsp +:+ "2x" ]} = Ok (Some "http://a/1.jpg").
Proof. repeat split; vm_compute; reflexivity. Qed.

(** * Further properties of [url_caption] *)

(** X1: a reference is dropped by the resolution exactly when it contains
    [.svg], or starts neither with a slash nor with [http]; so a path
    relative to the page, a [data:] address or an address in capitals is
    dropped, not requested. *)
Theorem X1_resolve_rejects page raw :
  resolve page raw = None <->
  PyStr.contains raw ".svg" = true \/
  (PyStr.startswith raw "/" = false /\ PyStr.startswith raw "http" = false).
Proof.
  split.
  - intros H. destruct (PyStr.contains raw ".svg") eqn:Hsvg; [left; reflexivity | right].
    destruct (PyStr.startswith raw "/") eqn:E1.
    + destruct (PyStr.startswith raw "//") eqn:E2.
      * rewrite (resolve_scheme_relative page raw Hsvg E2) in H. discriminate.
      * rewrite (resolve_root_relative page raw Hsvg) in H; [discriminate|].
        unfold root_relative. rewrite E1, E2. reflexivity.
    + destruct (PyStr.startswith raw "http") eqn:E3; [|auto].
      rewrite (resolve_http page raw Hsvg E3) in H. discriminate.
  - intros [H | [H1 H2]]; [apply resolve_svg, H | apply resolve_other; assumption].
Qed.

(** X2: when the page address starts with [http], so does every address an
    image is requested from and every address reported in [captions]. *)
Theorem X2_requests_are_http {World : Type} (env : Env World)
    (form : gmap string string) page w :
  form !! "url_addr" = Some page ->
  PyStr.startswith page "http" = true ->
  let st := snd (url_caption env POST form w) in
  Forall (fun u => PyStr.startswith u "http" = true) (gets (log st)) /\
  Forall (fun x => PyStr.startswith (url x) "http" = true) (captions st).
Proof.
  intros Hf Hp st. subst st. rewrite (proj1 (url_caption_post env form page w Hf)).
  destruct (pipeline_origin env page w) as (Hg & Hc & _).
  assert (H : Forall (fun u => PyStr.startswith u "http" = true)
                (gets (log (snd (pipeline env page (init w)))))).
  { apply Forall_forall. intros u Hu. destruct (Hg u Hu) as [raw Hr].
    apply (resolve_some_http page raw u Hp Hr). }
  split; [exact H|].
  apply Forall_forall. intros x Hx. rewrite Forall_forall in H. apply H, Hc, Hx.
Qed.

(** X3: when the page address does not contain [.svg], no image is ever
    requested from an address that contains [.svg], and no such address is
    reported in [captions]. *)
Theorem X3_no_svg_request {World : Type} (env : Env World)
    (form : gmap string string) page w :
  form !! "url_addr" = Some page ->
  PyStr.contains page ".svg" = false ->
  let st := snd (url_caption env POST form w) in
  Forall (fun u => PyStr.contains u ".svg" = false) (gets (log st)) /\
  Forall (fun x => PyStr.contains (url x) ".svg" = false) (captions st).
Proof.
  intros Hf Hp st. subst st. rewrite (proj1 (url_caption_post env form page w Hf)).
  destruct (pipeline_origin env page w) as (Hg & Hc & _).
  assert (H : Forall (fun u => PyStr.contains u ".svg" = false)
                (gets (log (snd (pipeline env page (init w)))))).
  { apply Forall_forall. intros u Hu. destruct (Hg u Hu) as [raw Hr].
    apply (resolve_some_no_svg page raw u Hp Hr). }
  split; [exact H|].
  apply Forall_forall. intros x Hx. rewrite Forall_forall in H. apply H, Hc, Hx.
Qed.

(** X4: when every element of the page is passed over (no reference, a
    vector image, a reference that cannot be made absolute), and so also
    when the page has no [<img>] at all, [url_caption] returns the empty
    list without raising, after the page request and no other. *)
Theorem X4_nothing_to_fetch {World : Type} (env : Env World)
    (form : gmap string string) page w resp w1 :
  form !! "url_addr" = Some page ->
  requests_get env page None w = (Ok resp, w1) ->
  (forall el, el ∈ find_all_img env (text resp) -> candidate page el = Ok None) ->
  url_caption env POST form w =
  (Ok [], {| world := w1; captions := [];
             log := [EvPrintFound (length (find_all_img env (text resp)))] |}).
Proof.
  intros Hf Hget Hall. unfold url_caption, form_get. rewrite Hf.
  rewrite (pipeline_page_ok env _ _ _ _ Hget).
  rewrite (loop_all_skipped env page _ 1 _ Hall). reflexivity.
Qed.

(** X5: when no element raises at the extraction and the request, the
    decoding and the caption call succeed for every resolved reference, with
    images of at least 200 pixels, the loop ends normally and the addresses
    it adds to [captions] are the first resolved references in document
    order, as many as the quota of five leaves room for. *)
Theorem X5_all_succeed {World : Type} (env : Env World) page els :
  forall idx (st : St World),
  (forall el, el ∈ els -> exists o, candidate page el = Ok o) ->
  (forall u, u ∈ resolved_refs page els -> forall w,
     exists r w1 img w2 c w3,
       requests_get env u (Some 10%Z) w = (Ok r, w1) /\
       Image_open env (content r) w1 = (Ok img, w2) /\
       (fst (size img) * snd (size img) <? 200)%Z = false /\
       captioner env img w2 = (Ok c, w3)) ->
  (length (captions st) < 5)%nat ->
  exists st',
    loop env page idx els st = (Ok tt, st') /\
    map url (captions st') =
    map url (captions st) ++ take (5 - length (captions st)) (resolved_refs page els).
Proof.
  induction els as [|el rest IH]; intros idx st Hex Hok Hlt.
  - exists st. split; [reflexivity|]. cbn. rewrite take_nil, app_nil_r. reflexivity.
  - rewrite loop_cons.
    assert (Hex' : forall el', el' ∈ rest -> exists o, candidate page el' = Ok o).
    { intros el' Hin. apply Hex. right. exact Hin. }
    destruct (Hex el) as [[u|] Hc]; [left| |].
    + assert (Hr : resolved page el = Some u) by (unfold resolved; rewrite Hc; reflexivity).
      rewrite resolved_refs_cons, Hr in Hok |- *. cbn [option_list app] in Hok |- *.
      destruct (Hok u (list_elem_of_here _ _) (world st))
        as (r & w1 & img & w2 & c & w3 & H1 & H2 & H3 & H4).
      rewrite (body_success env page idx el st u r w1 img w2 c w3 Hc H1 H2 H3 H4).
      assert (Hok' : forall u', u' ∈ resolved_refs page rest -> forall w,
         exists r w1 img w2 c w3,
           requests_get env u' (Some 10%Z) w = (Ok r, w1) /\
           Image_open env (content r) w1 = (Ok img, w2) /\
           (fst (size img) * snd (size img) <? 200)%Z = false /\
           captioner env img w2 = (Ok c, w3)).
      { intros u' Hin. apply Hok. right. exact Hin. }
      rewrite length_app. cbn [length].
      destruct (5 <=? length (captions st) + 1)%nat eqn:E.
      * apply Nat.leb_le in E. eexists. split; [reflexivity|].
        cbn [captions]. rewrite map_app. cbn [map url].
        replace (5 - length (captions st))%nat with 1%nat by lia.
        cbn [take]. reflexivity.
      * apply Nat.leb_gt in E.
        destruct (IH (S idx)
                    {| world := w3;
                       captions := captions st ++ [{| url := u; caption := c |}];
                       log := log st ++ [EvGet u] |} Hex' Hok')
          as (st' & Hl & Hm).
        { cbn [captions]. rewrite length_app. cbn [length]. lia. }
        exists st'. split; [exact Hl|]. rewrite Hm. cbn [captions].
        rewrite map_app, length_app. cbn [map url length].
        replace (5 - length (captions st))%nat
          with (S (5 - (length (captions st) + 1)))%nat by lia.
        cbn [take]. rewrite <- app_assoc. reflexivity.
    + assert (Hr : resolved page el = None) by (unfold resolved; rewrite Hc; reflexivity).
      rewrite resolved_refs_cons, Hr in Hok |- *. cbn [option_list app] in Hok |- *.
      rewrite (body_skip env page idx el st Hc). apply IH; assumption.
Qed.

(** X6: in a run of [url_caption] there are at most as many image requests
    as the page has [<img>] elements and at most as many captions as
    requests, and every address reported in [captions] is one an image was
    requested from. *)
Theorem X6_accounting {World : Type} (env : Env World)
    (form : gmap string string) page w resp w1 :
  form !! "url_addr" = Some page ->
  requests_get env page None w = (Ok resp, w1) ->
  let st := snd (url_caption env POST form w) in
  (length (captions st) <= length (gets (log st)))%nat /\
  (length (gets (log st)) <= length (find_all_img env (text resp)))%nat /\
  (forall x, x ∈ captions st -> url x ∈ gets (log st)).
Proof.
  intros Hf Hget st. subst st. rewrite (proj1 (url_caption_post env form page w Hf)).
  destruct (pipeline_origin env page w) as (_ & Hc & Hlen).
  split; [exact Hlen|]. split; [|exact Hc].
  rewrite (pipeline_page_ok env _ _ _ _ Hget).
  set (els := find_all_img env (text resp)).
  destruct (loop_origin env page els 1
              {| world := w1; captions := []; log := [EvPrintFound (length els)] |})
    as (new & evs & _ & Hl & _ & _ & Hb).
  rewrite Hl. cbn [log app].
  change (gets (EvPrintFound (length els) :: evs)) with (gets evs). lia.
Qed.

(** X7: every failure printed during a run carries the position, counted
    from 1, of an element of the page whose reference was resolved, and an
    exception that is an [Exception]. *)
Theorem X7_printed_failures {World : Type} (env : Env World) page w resp w1 i e :
  requests_get env page None w = (Ok resp, w1) ->
  (i, e) ∈ print_errors (log (snd (pipeline env page (init w)))) ->
  (1 <= i <= length (find_all_img env (text resp)))%nat /\
  is_Exception e = true /\
  exists el u, find_all_img env (text resp) !! (i - 1)%nat = Some el /\
               resolved page el = Some u.
Proof.
  intros Hget Hin. rewrite (pipeline_page_ok env _ _ _ _ Hget) in Hin.
  set (els := find_all_img env (text resp)) in *.
  destruct (loop env page 1 els
              {| world := w1; captions := []; log := [EvPrintFound (length els)] |})
    as [r st1] eqn:Hl.
  destruct (loop_prints env page els _ _ _ _ Hl) as (evs & Hlog & Hp).
  cbn [snd] in Hin. rewrite Hlog in Hin. cbn [log app] in Hin.
  change (print_errors (EvPrintFound (length els) :: evs)) with (print_errors evs) in Hin.
  destruct (Hp i e Hin) as (Hi & He & el & u & Hlk & Hr).
  split; [lia|]. split; [exact He|]. eauto.
Qed.

(** X8: an exception that is not an [Exception] (an interrupt from the
    keyboard, an exit) raised by the request, the decoding or the caption
    call is not caught: it ends the loop, nothing is printed and the
    elements after it are not looked at; [captions] is as before. *)
Theorem X8_interrupt_not_absorbed {World : Type} (env : Env World) page idx
    (el : gmap string string) rest (st : St World) u e w' :
  candidate page el = Ok (Some u) ->
  stage_fails env u (world st) e w' ->
  is_Exception e = false ->
  loop env page idx (el :: rest) st =
  (Raise e, {| world := w'; captions := captions st; log := log st ++ [EvGet u] |}).
Proof.
  intros Hc Hf He. rewrite loop_cons, (body_try env _ _ _ _ _ Hc). unfold try_except.
  rewrite (attempt_fails env _ _ _ _ Hf), He. reflexivity.
Qed.

(** X9: the extraction raises exactly when the element has no usable [src]
    and no usable [data-src] and has a [srcset] attribute made of whitespace
    only (the empty one included); the exception is then [IndexError]. *)
Theorem X9_extract_raises_iff (el : gmap string string) e :
  extract el = Raise e <->
  e = IndexError /\
  truthy (el !! "src") = false /\
  truthy (el !! "data-src") = false /\
  exists v, el !! "srcset" = Some v /\ all_space v = true.
Proof.
  split.
  - intros H. destruct (extract_raise el e H) as (-> & v & Hv & Hsplit).
    apply split_nil in Hsplit.
    unfold extract, py_or in H. cbv zeta in H.
    destruct (truthy (el !! "src")) eqn:Hs.
    { rewrite Hs in H. discriminate. }
    destruct (truthy (el !! "data-src")) eqn:Hd; [discriminate|].
    repeat split; eauto.
  - intros (-> & Hs & Hd & v & Hv & Hsp).
    rewrite (extract_srcset el v Hs Hd Hv).
    apply split_nil in Hsp. rewrite Hsp. reflexivity.
Qed.

(** * The other handlers *)

Section HandlerSteps.

Context {World : Type} (app : App World).

Lemma bind_http_get {B} u (k : Response -> M World B) (st : St World) :
  bind (http_get app u) k st =
  match requests_get (app_env app) u None (world st) with
  | (Ok r, w) => k r {| world := w; captions := captions st; log := log st ++ [EvGet u] |}
  | (Raise e, w) =>
      (Raise e, {| world := w; captions := captions st; log := log st ++ [EvGet u] |})
  end.
Proof.
  unfold bind, http_get, emit, call. cbn.
  destruct (requests_get (app_env app) u None (world st)) as [[r|e] w]; reflexivity.
Qed.

Lemma bind_lift {A B} (r : result A) (k : A -> M World B) (st : St World) :
  bind (lift r) k st =
  match r with
  | Ok a => k a st
  | Raise e => (Raise e, st)
  end.
Proof. unfold bind, lift. destruct r; reflexivity. Qed.

Lemma bind_call {A B} (f : World -> result A * World) (k : A -> M World B) (st : St World) :
  bind (call f) k st =
  match f (world st) with
  | (Ok a, w) => k a {| world := w; captions := captions st; log := log st |}
  | (Raise e, w) => (Raise e, {| world := w; captions := captions st; log := log st |})
  end.
Proof. unfold bind, call. destruct (f (world st)) as [[a|e] w]; reflexivity. Qed.

Lemma bind_fetch_users {B} (k : list string -> M World B) (st : St World) :
  bind (fetch_users app) k st =
  match requests_get (app_env app) users_url None (world st) with
  | (Ok resp, w) =>
      let st1 := {| world := w; captions := captions st;
                    log := log st ++ [EvGet users_url] |} in
      match rbind (response_json app resp) users_of with
      | Ok us => k us st1
      | Raise e => (Raise e, st1)
      end
  | (Raise e, w) =>
      (Raise e, {| world := w; captions := captions st; log := log st ++ [EvGet users_url] |})
  end.
Proof.
  unfold fetch_users, bind, http_get, emit, call, lift. cbn.
  destruct (requests_get (app_env app) users_url None (world st)) as [[r|e] w];
    [|reflexivity].
  cbn. destruct (rbind (response_json app r) users_of); reflexivity.
Qed.

(** The requests of [recommendations]: the first [n] of its four
    addresses, all four when it returns. *)
Lemma recommendations_requests (form : gmap string string) (st : St World) :
  exists n,
    (1 <= n <= 4)%nat /\
    log (snd (recommendations app form st))
      = log st ++ map EvGet (take n (recommendation_urls app form)) /\
    captions (snd (recommendations app form st)) = captions st /\
    (forall r, fst (recommendations app form st) = Ok r -> n = 4%nat).
Proof.
  remember (recommendations app form st) as out eqn:E.
  unfold recommendations in E. cbv zeta in E. unfold recommendation_urls.
  rewrite bind_fetch_users in E.
  destruct (requests_get (app_env app) users_url None (world st)) as [[r1|e] w1];
    [|requests_leaf 1%nat].
  cbv zeta in E.
  destruct (rbind (response_json app r1) users_of) as [us|e]; [|requests_leaf 1%nat].
  rewrite bind_http_get in E. cbn [world captions log] in E.
  destruct (requests_get (app_env app) _ None w1) as [[r2|e] w2]; [|requests_leaf 2%nat].
  rewrite bind_lift in E.
  destruct (response_json app r2) as [data|e]; [|requests_leaf 2%nat].
  rewrite bind_lift in E.
  destruct (recipe_step data ∅) as [recs|e]; [|requests_leaf 2%nat].
  rewrite bind_http_get in E. cbn [world captions log] in E.
  destruct (requests_get (app_env app) _ None w2) as [[r3|e] w3]; [|requests_leaf 3%nat].
  rewrite bind_lift in E.
  destruct (book_title app r3) as [book|e]; [|requests_leaf 3%nat].
  rewrite bind_http_get in E. cbn [world captions log] in E.
  destruct (requests_get (app_env app) _ None w3) as [[r4|e] w4]; [|requests_leaf 4%nat].
  rewrite bind_lift in E.
  destruct (song_field app r4 "trackName") as [track|e]; [|requests_leaf 4%nat].
  rewrite bind_lift in E.
  destruct (song_field app r4 "artistName") as [artist|e]; requests_leaf 4%nat.
Qed.

(** What [recommendations] returns when it returns. *)
Lemma recommendations_ok (form : gmap string string) (st st' : St World) r :
  recommendations app form st = (Ok r, st') ->
  exists data recs book track artist,
    recipe_step data ∅ = Ok recs /\
    recommendations_dict r
      = <["song_artist" := artist]> (<["song" := track]> (<["book" := book]> recs)) /\
    person r = form !! "person" /\
    emotion r = form !! "emotion".
Proof.
  intros E. unfold recommendations in E. cbv zeta in E.
  rewrite bind_fetch_users in E.
  destruct (requests_get (app_env app) users_url None (world st)) as [[r1|e] w1];
    [|discriminate].
  cbv zeta in E.
  destruct (rbind (response_json app r1) users_of) as [us|e]; [|discriminate].
  rewrite bind_http_get in E. cbn [world captions log] in E.
  destruct (requests_get (app_env app) _ None w1) as [[r2|e] w2]; [|discriminate].
  rewrite bind_lift in E.
  destruct (response_json app r2) as [data|e]; [|discriminate].
  rewrite bind_lift in E.
  destruct (recipe_step data ∅) as [recs|e] eqn:Hrecs; [|discriminate].
  rewrite bind_http_get in E. cbn [world captions log] in E.
  destruct (requests_get (app_env app) _ None w2) as [[r3|e] w3]; [|discriminate].
  rewrite bind_lift in E.
  destruct (book_title app r3) as [book|e]; [|discriminate].
  rewrite bind_http_get in E. cbn [world captions log] in E.
  destruct (requests_get (app_env app) _ None w3) as [[r4|e] w4]; [|discriminate].
  rewrite bind_lift in E.
  destruct (song_field app r4 "trackName") as [track|e]; [|discriminate].
  rewrite bind_lift in E.
  destruct (song_field app r4 "artistName") as [artist|e]; [|discriminate].
  inversion E; subst; clear E. cbn.
  exists data, recs, book, track, artist. split; [exact Hrecs|]. repeat split.
Qed.

End HandlerSteps.

(** Lines 64-66 set both keys of the recipe or none. *)
Lemma recipe_step_inv data (recs recs' : gmap string json) :
  recipe_step data recs = Ok recs' ->
  recs' = recs \/
  exists rs r t s,
    getitem data "recipes" = Ok rs /\ json_truthy rs = true /\ getitem0 rs = Ok r /\
    getitem r "title" = Ok t /\ getitem r "sourceUrl" = Ok s /\
    recs' = <["recipe_url" := s]> (<["recipe" := t]> recs).
Proof.
  unfold recipe_step, rbind.
  destruct (py_in "recipes" data) as [[|]|e]; [| intros [= <-]; auto | discriminate].
  destruct (getitem data "recipes") as [rs|e] eqn:H1; [|discriminate].
  destruct (json_truthy rs) eqn:Ht; [|intros [= <-]; auto].
  destruct (getitem0 rs) as [r|e] eqn:H2; [|discriminate].
  destruct (getitem r "title") as [t|e] eqn:H3; [|discriminate].
  destruct (getitem r "sourceUrl") as [s|e] eqn:H4; [|discriminate].
  intros [= <-]. right. exists rs, r, t, s. repeat split; reflexivity || assumption.
Qed.

Lemma recipe_step_absent (d recs : gmap string json) :
  (d !! "recipes" = None \/ exists v, d !! "recipes" = Some v /\ json_truthy v = false) ->
  recipe_step (JDict d) recs = Ok recs.
Proof.
  intros [H | (v & H & Hv)]; unfold recipe_step, rbind, py_in, getitem; rewrite H.
  - rewrite bool_decide_eq_false_2; [reflexivity|]. intros [x Hx]. discriminate.
  - rewrite bool_decide_eq_true_2 by eauto. rewrite Hv. reflexivity.
Qed.

Lemma comprehension_Forall2 {A B} (f : A -> result B) xs ys :
  comprehension f xs = Ok ys -> Forall2 (fun x y => f x = Ok y) xs ys.
Proof.
  revert ys. induction xs as [|x xs IH]; intros ys; cbn [comprehension]; unfold rbind.
  - intros [= <-]. constructor.
  - destruct (f x) as [y|e] eqn:Hx; [|discriminate].
    destruct (comprehension f xs) as [ys'|e]; [|discriminate].
    intros [= <-]. constructor; [exact Hx | apply IH; reflexivity].
Qed.

Lemma full_name_inv u s :
  full_name u = Ok s ->
  exists name f l,
    getitem u "name" = Ok name /\
    getitem name "first" = Ok (JStr f) /\
    getitem name "last" = Ok (JStr l) /\
    s = (f +:+ " ") +:+ l.
Proof.
  unfold full_name, rbind, as_str.
  destruct (getitem u "name") as [name|e] eqn:H1; [|discriminate].
  destruct (getitem name "first") as [[| | | |f| |]|e] eqn:H2; try discriminate.
  destruct (getitem name "last") as [[| | | |l| |]|e] eqn:H3; try discriminate.
  intros [= <-]. exists name, f, l. repeat split; reflexivity || assumption.
Qed.


(** X11: when [recommendations] returns, the person and the emotion handed
    to the template are the form fields as received, and the dictionary
    holds the keys [book], [song] and [song_artist], with either both of
    [recipe] and [recipe_url] or neither. *)
Theorem X11_recommendations_keys {World : Type} (app : App World)
    (form : gmap string string) (st st' : St World) r :
  recommendations app form st = (Ok r, st') ->
  person r = form !! "person" /\
  emotion r = form !! "emotion" /\
  (dom (recommendations_dict r) = ({[ "book"; "song"; "song_artist" ]} : gset string) \/
   dom (recommendations_dict r)
     = ({[ "recipe"; "recipe_url"; "book"; "song"; "song_artist" ]} : gset string)).
Proof.
  intros H.
  destruct (recommendations_ok app form st st' r H)
    as (data & recs & book & track & artist & Hrecs & -> & Hp & He).
  split; [exact Hp|]. split; [exact He|].
  destruct (recipe_step_inv data ∅ recs Hrecs)
    as [-> | (rs & r0 & t & s & _ & _ & _ & _ & _ & ->)];
    [left | right]; rewrite !dom_insert_L, dom_empty_L; set_solver.
Qed.

(** X12: the tag of line 59 is always one of seven texts, and it is the
    fallback [main course] exactly when the emotion is none of the six keys
    of the dictionary (in particular when the form has no emotion). *)
Theorem X12_tag_fallback (emotion : option string) :
  tag_of emotion ∈ ["comfort food"; "dessert"; "soup"; "spicy"; "chocolate"; "snack";
                    "main course"] /\
  (tag_of emotion = "main course" <->
   forall k, k ∈ known_emotions -> emotion <> Some k).
Proof.
  destruct emotion as [e|].
  2:{ split; [in_list|]. split; [intros _ k _; discriminate | reflexivity]. }
  assert (Hknown : forall k tag, e = k -> k ∈ known_emotions -> tag_of (Some k) = tag ->
            tag <> "main course" ->
            tag ∈ ["comfort food"; "dessert"; "soup"; "spicy"; "chocolate"; "snack";
                   "main course"] ->
            tag_of (Some e) ∈ ["comfort food"; "dessert"; "soup"; "spicy"; "chocolate";
                               "snack"; "main course"] /\
            (tag_of (Some e) = "main course" <->
             forall k, k ∈ known_emotions -> Some e <> Some k)).
  { intros k tag -> Hin Htag Hne Hmem. rewrite Htag. split; [exact Hmem|].
    split; [intros; contradiction | intros Hall; destruct (Hall k Hin); reflexivity]. }
  destruct (decide (e = "sad")) as [E|N1];
    [apply (Hknown "sad" "comfort food" E); [in_list|reflexivity|discriminate|in_list]|].
  destruct (decide (e = "happy")) as [E|N2];
    [apply (Hknown "happy" "dessert" E); [in_list|reflexivity|discriminate|in_list]|].
  destruct (decide (e = "fear")) as [E|N3];
    [apply (Hknown "fear" "soup" E); [in_list|reflexivity|discriminate|in_list]|].
  destruct (decide (e = "anger")) as [E|N4];
    [apply (Hknown "anger" "spicy" E); [in_list|reflexivity|discriminate|in_list]|].
  destruct (decide (e = "depression")) as [E|N5];
    [apply (Hknown "depression" "chocolate" E);
     [in_list|reflexivity|discriminate|in_list]|].
  destruct (decide (e = "nervous")) as [E|N6];
    [apply (Hknown "nervous" "snack" E); [in_list|reflexivity|discriminate|in_list]|].
  assert (Hfb : tag_of (Some e) = "main course").
  { unfold tag_of, emotion_to_tag.
    rewrite !lookup_insert_ne by congruence.
    rewrite lookup_singleton_ne by congruence. reflexivity. }
  rewrite Hfb. split; [in_list|]. split; [|reflexivity].
  intros _ k Hk [= ->]. unfold known_emotions in Hk.
  repeat (apply elem_of_cons in Hk as [Hk|Hk]; [congruence|]). inversion Hk.
Qed.

(** X13: a recipe document without recipes is passed over, a book document
    without items is not: when the recipe service answers with a dictionary
    that has no [recipes] key and the book service with one that has no
    [items] key, [recommendations] raises [KeyError] after the third
    request, and the song service is never asked. *)
Theorem X13_book_without_items {World : Type} (app : App World)
    (form : gmap string string) (st : St World) r1 w1 us r2 w2 d2 r3 w3 d3 :
  requests_get (app_env app) users_url None (world st) = (Ok r1, w1) ->
  rbind (response_json app r1) users_of = Ok us ->
  requests_get (app_env app)
    (recipe_url_of (tag_of (form !! "emotion")) (SPOONACULAR_API_KEY app)) None w1
    = (Ok r2, w2) ->
  response_json app r2 = Ok (JDict d2) ->
  d2 !! "recipes" = None ->
  requests_get (app_env app)
    (book_url_of (form !! "emotion") (GOOGLE_BOOKS_API_KEY app)) None w2
    = (Ok r3, w3) ->
  response_json app r3 = Ok (JDict d3) ->
  d3 !! "items" = None ->
  recommendations app form st =
  (Raise KeyError,
   {| world := w3; captions := captions st;
      log := log st ++ map EvGet (take 3 (recommendation_urls app form)) |}).
Proof.
  intros H1 Hus H2 Hd2 Hr H3 Hd3 Hi.
  unfold recommendations. cbv zeta.
  rewrite bind_fetch_users, H1. cbv zeta. rewrite Hus.
  rewrite bind_http_get. cbn [world captions log]. rewrite H2.
  rewrite bind_lift, Hd2, bind_lift.
  rewrite (recipe_step_absent d2 ∅) by (left; exact Hr).
  rewrite bind_http_get. cbn [world captions log]. rewrite H3.
  rewrite bind_lift. unfold book_title. rewrite Hd3. cbn [rbind getitem]. rewrite Hi.
  cbn. rewrite <- !app_assoc. reflexivity.
Qed.

(** X14: a request without an [emotion] field (any GET, for one) is served
    like any other. The requests it makes are the first of four addresses:
    the users, the recipe with the tag [main course], the book and the song
    with the text [None] in place of the emotion; and when it returns, it
    has asked all four, in this order, and hands [None] as the emotion to
    the template. *)
Theorem X14_missing_emotion {World : Type} (app : App World)
    (form : gmap string string) (st : St World) :
  form !! "emotion" = None ->
  let asked :=
    [ "https://randomuser.me/api/?results=10";
      "https://api.spoonacular.com/recipes/random?tags=main course&apiKey="
        +:+ fmt (SPOONACULAR_API_KEY app);
      "https://www.googleapis.com/books/v1/volumes?q=None&key="
        +:+ fmt (GOOGLE_BOOKS_API_KEY app);
      "https://itunes.apple.com/search?term=None&entity=song&limit=1" ] in
  (exists n,
     (1 <= n <= 4)%nat /\
     log (snd (recommendations app form st)) = log st ++ map EvGet (take n asked)) /\
  (forall r,
     fst (recommendations app form st) = Ok r ->
     emotion r = None /\
     log (snd (recommendations app form st)) = log st ++ map EvGet asked).
Proof.
  intros He asked.
  assert (Hurls : recommendation_urls app form = asked).
  { unfold recommendation_urls. rewrite He. reflexivity. }
  destruct (recommendations_requests app form st) as (n & Hn & Hlog & _ & Hfull).
  rewrite Hurls in Hlog.
  split; [exists n; split; [exact Hn | exact Hlog]|].
  intros r Hr. rewrite Hlog, (Hfull r Hr). split; [|reflexivity].
  destruct (recommendations app form st) as [res st'] eqn:E. cbn [fst] in Hr. subst res.
  destruct (recommendations_ok app form st st' r E) as (_ & _ & _ & _ & _ & _ & _ & _ & Hem).
  rewrite Hem. exact He.
Qed.

(** X15: when the [results] of the users document is a list and the
    comprehension of lines 38 and 47 succeeds, it yields one name for each
    result, in the order of the list, made of the first name, a space and
    the last name, both of which are strings. *)
Theorem X15_users_of j xs us :
  getitem j "results" = Ok (JList xs) ->
  users_of j = Ok us ->
  Forall2 (fun x s =>
             exists name f l,
               getitem x "name" = Ok name /\
               getitem name "first" = Ok (JStr f) /\
               getitem name "last" = Ok (JStr l) /\
               s = (f +:+ " ") +:+ l) xs us.
Proof.
  intros Hr H. unfold users_of in H. rewrite Hr in H. cbn [rbind py_iter] in H.
  apply comprehension_Forall2 in H.
  eapply Forall2_impl; [exact H|]. intros x s Hx. apply full_name_inv, Hx.
Qed.

(** X16: [caption_generation] hands the template either no address and no
    caption, having touched nothing, or both an address and a caption; in
    the second case the request is a POST with a named file, the file was
    saved under [static/uploads] joined with its secured name, decoded and
    captioned, each with success and in this order, and the address is the
    static one of [uploads/] followed by the same name. *)
Theorem X16_caption_generation_result {World : Type} (app : App World) method
    (files : gmap string FileStorage) (st st' : St World) image_url caption :
  caption_generation app method files st = (Ok (image_url, caption), st') ->
  (image_url = None /\ caption = None /\ st' = st) \/
  (exists file c w1 img w2,
     method = POST /\
     files !! "image" = Some file /\
     truthy (filename file) = true /\
     let name := secure_filename app (default "" (filename file)) in
     file_save app (path_join "static/uploads" name) (stream file) (world st) = (Ok tt, w1) /\
     Image_open (app_env app) (stream file) w1 = (Ok img, w2) /\
     upload_captioner app img w2 = (Ok c, world st') /\
     image_url = Some (url_for_static app ("uploads/" +:+ name)) /\
     caption = Some c).
Proof.
  unfold caption_generation. destruct method.
  { intros [= <- <- <-]. left. auto. }
  destruct (files !! "image") as [file|] eqn:Hfile; [|discriminate].
  destruct (truthy (filename file)) eqn:Ht; [|intros [= <- <- <-]; left; auto].
  cbv zeta. rewrite bind_call. cbn [world captions log].
  destruct (file_save app _ (stream file) (world st)) as [[[]|e] w1] eqn:Hs; [|discriminate].
  rewrite bind_call. cbn [world captions log].
  destruct (Image_open (app_env app) (stream file) w1) as [[img|e] w2] eqn:Ho; [|discriminate].
  rewrite bind_call. cbn [world captions log].
  destruct (upload_captioner app img w2) as [[c|e] w3] eqn:Hc; [|discriminate].
  intros [= <- <- <-]. right. exists file, c, w1, img, w2. cbn [world].
  repeat split; assumption || reflexivity.
Qed.

(** X17: [caption_generation] saves the upload before it looks at it and
    catches nothing: when the bytes saved are not an image, the exception
    of the decoder leaves the handler, after the file has been written. *)
Theorem X17_upload_saved_before_decode {World : Type} (app : App World)
    (files : gmap string FileStorage) (st : St World) file w1 e w2 :
  files !! "image" = Some file ->
  truthy (filename file) = true ->
  file_save app
    (path_join "static/uploads" (secure_filename app (default "" (filename file))))
    (stream file) (world st) = (Ok tt, w1) ->
  Image_open (app_env app) (stream file) w1 = (Raise e, w2) ->
  caption_generation app POST files st =
  (Raise e, {| world := w2; captions := captions st; log := log st |}).
Proof.
  intros Hfile Ht Hs Ho. unfold caption_generation. rewrite Hfile, Ht. cbv zeta.
  rewrite bind_call, Hs. cbn [world captions log].
  rewrite bind_call. cbn [world captions log]. rewrite Ho. reflexivity.
Qed.

(** X18: [emotion_selection] makes one request, to the users service,
    whatever the outcome, and catches nothing: a users document that is a
    dictionary without the key [results] makes it raise [KeyError]. *)
Theorem X18_emotion_selection {World : Type} (app : App World) (st : St World) :
  log (snd (emotion_selection app st)) = log st ++ [EvGet users_url] /\
  (forall resp w d,
     requests_get (app_env app) users_url None (world st) = (Ok resp, w) ->
     response_json app resp = Ok (JDict d) ->
     d !! "results" = None ->
     fst (emotion_selection app st) = Raise KeyError).
Proof.
  unfold emotion_selection, fetch_users.
  rewrite bind_http_get.
  destruct (requests_get (app_env app) users_url None (world st)) as [[resp|e] w];
    (split; [reflexivity|]).
  - intros resp' w' d [= <- <-] Hj Hd. unfold lift. cbn [fst].
    rewrite Hj. cbn [rbind]. unfold users_of, getitem. rewrite Hd. reflexivity.
  - intros resp' w' d [=].
Qed.

(** * The further properties at concrete inputs *)

Lemma X2_witness :
  demo_url_form !! "url_addr" = Some "https://site.com" /\
  PyStr.startswith "https://site.com" "http" = true /\
  let st := snd (url_caption (demo_env markup3) POST demo_url_form 0%nat) in
  Forall (fun u => PyStr.startswith u "http" = true) (gets (log st)) /\
  Forall (fun x => PyStr.startswith (url x) "http" = true) (captions st).
Proof.
  split; [vm_compute; reflexivity|]. split; [vm_compute; reflexivity|].
  apply (X2_requests_are_http (demo_env markup3) demo_url_form "https://site.com" 0%nat);
    vm_compute; reflexivity.
Defined.

Lemma X3_witness :
  demo_url_form !! "url_addr" = Some "https://site.com" /\
  PyStr.contains "https://site.com" ".svg" = false /\
  let st := snd (url_caption (demo_env markup3) POST demo_url_form 0%nat) in
  Forall (fun u => PyStr.contains u ".svg" = false) (gets (log st)) /\
  Forall (fun x => PyStr.contains (url x) ".svg" = false) (captions st).
Proof.
  split; [vm_compute; reflexivity|]. split; [vm_compute; reflexivity|].
  apply (X3_no_svg_request (demo_env markup3) demo_url_form "https://site.com" 0%nat);
    vm_compute; reflexivity.
Defined.

Lemma X4_witness :
  let env := demo_env unusable_images in
  let resp := {| content := "https://site.com"; text := "https://site.com" |} in
  demo_url_form !! "url_addr" = Some "https://site.com" /\
  requests_get env "https://site.com" None 0%nat = (Ok resp, 1%nat) /\
  (forall el, el ∈ find_all_img env (text resp) ->
              candidate "https://site.com" el = Ok None) /\
  url_caption env POST demo_url_form 0%nat =
  (Ok [], {| world := 1%nat; captions := [];
             log := [EvPrintFound (length (find_all_img env (text resp)))] |}).
Proof.
  intros env resp.
  assert (Hall : forall el, el ∈ find_all_img env (text resp) ->
                            candidate "https://site.com" el = Ok None).
  { intros el Hin. cbn in Hin. unfold unusable_images in Hin.
    repeat (apply elem_of_cons in Hin as [-> | Hin]; [vm_compute; reflexivity|]).
    inversion Hin. }
  split; [vm_compute; reflexivity|]. split; [vm_compute; reflexivity|].
  split; [exact Hall|].
  apply (X4_nothing_to_fetch env demo_url_form "https://site.com" 0%nat resp 1%nat);
    [vm_compute; reflexivity | vm_compute; reflexivity | exact Hall].
Defined.

Lemma X5_witness :
  let env := demo_env [] in
  let page := "https://site.com" in
  let els := five_images ++ [sixth_image] in
  (forall el, el ∈ els -> exists o, candidate page el = Ok o) /\
  (forall u, u ∈ resolved_refs page els -> forall w,
     exists r w1 img w2 c w3,
       requests_get env u (Some 10%Z) w = (Ok r, w1) /\
       Image_open env (content r) w1 = (Ok img, w2) /\
       (fst (size img) * snd (size img) <? 200)%Z = false /\
       captioner env img w2 = (Ok c, w3)) /\
  (length (captions (init 0%nat)) < 5)%nat /\
  exists st',
    loop env page 1 els (init 0%nat) = (Ok tt, st') /\
    map url (captions st') =
    map url (captions (init 0%nat)) ++
    take (5 - length (captions (init 0%nat))) (resolved_refs page els).
Proof.
  intros env page els.
  assert (H1 : forall el, el ∈ els -> exists o, candidate page el = Ok o).
  { intros el Hin. unfold els, five_images, sixth_image in Hin. cbn [map app] in Hin.
    repeat (apply elem_of_cons in Hin as [-> | Hin];
            [eexists; vm_compute; reflexivity|]).
    inversion Hin. }
  assert (H2 : forall u, u ∈ resolved_refs page els -> forall w,
     exists r w1 img w2 c w3,
       requests_get env u (Some 10%Z) w = (Ok r, w1) /\
       Image_open env (content r) w1 = (Ok img, w2) /\
       (fst (size img) * snd (size img) <? 200)%Z = false /\
       captioner env img w2 = (Ok c, w3)).
  { intros u Hin w.
    assert (Hrefs : resolved_refs page els =
              ["http://a/1.jpg"; "http://a/2.jpg"; "http://a/3.jpg"; "http://a/4.jpg";
               "http://a/5.jpg"; "http://a/6.jpg"]) by (vm_compute; reflexivity).
    rewrite Hrefs in Hin.
    repeat (apply elem_of_cons in Hin as [-> | Hin];
            [do 6 eexists; split; [cbn; reflexivity|];
             split; [cbn; reflexivity|]; split; [cbn; reflexivity|]; cbn; reflexivity|]).
    inversion Hin. }
  assert (H3 : (length (captions (init 0%nat)) < 5)%nat) by (vm_compute; lia).
  split; [exact H1|]. split; [exact H2|]. split; [exact H3|].
  exact (X5_all_succeed env page els 1%nat (init 0%nat) H1 H2 H3).
Defined.

Lemma X6_witness :
  let env := demo_env markup3 in
  let resp := {| content := "https://site.com"; text := "https://site.com" |} in
  demo_url_form !! "url_addr" = Some "https://site.com" /\
  requests_get env "https://site.com" None 0%nat = (Ok resp, 1%nat) /\
  let st := snd (url_caption env POST demo_url_form 0%nat) in
  (length (captions st) <= length (gets (log st)))%nat /\
  (length (gets (log st)) <= length (find_all_img env (text resp)))%nat /\
  (forall x, x ∈ captions st -> url x ∈ gets (log st)).
Proof.
  intros env resp.
  split; [vm_compute; reflexivity|]. split; [vm_compute; reflexivity|].
  apply (X6_accounting env demo_url_form "https://site.com" 0%nat resp 1%nat);
    vm_compute; reflexivity.
Defined.

Lemma X7_witness :
  let env := demo_env one_good_one_late in
  let resp := {| content := "https://site.com"; text := "https://site.com" |} in
  let e := OtherException "ConnectTimeout" in
  requests_get env "https://site.com" None 0%nat = (Ok resp, 1%nat) /\
  (2%nat, e) ∈ print_errors (log (snd (pipeline env "https://site.com" (init 0%nat)))) /\
  (1 <= 2 <= length (find_all_img env (text resp)))%nat /\
  is_Exception e = true /\
  exists el u, find_all_img env (text resp) !! (2 - 1)%nat = Some el /\
               resolved "https://site.com" el = Some u.
Proof.
  intros env resp e.
  assert (Hin : (2%nat, e) ∈
            print_errors (log (snd (pipeline env "https://site.com" (init 0%nat)))))
    by (vm_compute; apply list_elem_of_here).
  split; [vm_compute; reflexivity|]. split; [exact Hin|].
  apply (X7_printed_failures env "https://site.com" 0%nat resp 1%nat 2%nat e);
    [vm_compute; reflexivity | exact Hin].
Defined.

Lemma X8_witness :
  let u := "http://a/1.jpg" in
  candidate "https://site.com" (img_src u) = Ok (Some u) /\
  stage_fails interrupted_env u 0%nat KeyboardInterrupt 1%nat /\
  is_Exception KeyboardInterrupt = false /\
  loop interrupted_env "https://site.com" 1 [img_src u; sixth_image] (init 0%nat) =
  (Raise KeyboardInterrupt, {| world := 1%nat; captions := []; log := [EvGet u] |}).
Proof.
  intros u.
  assert (Hf : stage_fails interrupted_env u (world (init 0%nat)) KeyboardInterrupt 1%nat)
    by (apply fetch_fails; reflexivity).
  split; [vm_compute; reflexivity|]. split; [exact Hf|]. split; [reflexivity|].
  apply (X8_interrupt_not_absorbed interrupted_env "https://site.com" 1 (img_src u)
           [sixth_image] (init 0%nat) u KeyboardInterrupt 1%nat);
    [vm_compute; reflexivity | exact Hf | reflexivity].
Defined.

Lemma X11_witness :
  let st' := snd (recommendations (demo_app demo_docs_ok) demo_form (init 0%nat)) in
  recommendations (demo_app demo_docs_ok) demo_form (init 0%nat)
    = (Ok demo_recommended, st') /\
  person demo_recommended = demo_form !! "person" /\
  emotion demo_recommended = demo_form !! "emotion" /\
  (dom (recommendations_dict demo_recommended)
     = ({[ "book"; "song"; "song_artist" ]} : gset string) \/
   dom (recommendations_dict demo_recommended)
     = ({[ "recipe"; "recipe_url"; "book"; "song"; "song_artist" ]} : gset string)).
Proof.
  intros st'.
  assert (H : recommendations (demo_app demo_docs_ok) demo_form (init 0%nat)
              = (Ok demo_recommended, st')) by (vm_compute; reflexivity).
  split; [exact H|].
  exact (X11_recommendations_keys (demo_app demo_docs_ok) demo_form (init 0%nat) st'
           demo_recommended H).
Defined.

Lemma X13_witness :
  let app := demo_app demo_docs in
  let recipe_url := recipe_url_of (tag_of (demo_form !! "emotion")) (SPOONACULAR_API_KEY app) in
  let book_url := book_url_of (demo_form !! "emotion") (GOOGLE_BOOKS_API_KEY app) in
  let r1 := {| content := users_url; text := users_url |} in
  let r2 := {| content := recipe_url; text := recipe_url |} in
  let r3 := {| content := book_url; text := book_url |} in
  let d2 : gmap string json := {[ "status" := JStr "failure" ]} in
  let d3 : gmap string json := {[ "totalItems" := JInt 0 ]} in
  requests_get (app_env app) users_url None 0%nat = (Ok r1, 1%nat) /\
  rbind (response_json app r1) users_of = Ok ["Ada Lovelace"; "Alan Turing"] /\
  requests_get (app_env app) recipe_url None 1%nat = (Ok r2, 2%nat) /\
  response_json app r2 = Ok (JDict d2) /\
  d2 !! "recipes" = None /\
  requests_get (app_env app) book_url None 2%nat = (Ok r3, 3%nat) /\
  response_json app r3 = Ok (JDict d3) /\
  d3 !! "items" = None /\
  recommendations app demo_form (init 0%nat) =
  (Raise KeyError,
   {| world := 3%nat; captions := [];
      log := [] ++ map EvGet (take 3 (recommendation_urls app demo_form)) |}).
Proof.
  intros app recipe_url book_url r1 r2 r3 d2 d3.
  repeat (split; [vm_compute; reflexivity|]).
  apply (X13_book_without_items app demo_form (init 0%nat) r1 1%nat
           ["Ada Lovelace"; "Alan Turing"] r2 2%nat d2 r3 3%nat d3);
    vm_compute; reflexivity.
Defined.

Lemma X14_witness :
  let app := demo_app demo_docs_no_emotion in
  let form : gmap string string := {[ "person" := "Ada Lovelace" ]} in
  let asked :=
    [ "https://randomuser.me/api/?results=10";
      "https://api.spoonacular.com/recipes/random?tags=main course&apiKey=None";
      "https://www.googleapis.com/books/v1/volumes?q=None&key=GK";
      "https://itunes.apple.com/search?term=None&entity=song&limit=1" ] in
  let r := {| users := users demo_recommended;
              recommendations_dict := recommendations_dict demo_recommended;
              person := Some "Ada Lovelace";
              emotion := None |} in
  form !! "emotion" = None /\
  fst (recommendations app form (init 0%nat)) = Ok r /\
  emotion r = None /\
  log (snd (recommendations app form (init 0%nat))) = log (init 0%nat) ++ map EvGet asked.
Proof.
  intros app form asked r.
  assert (He : form !! "emotion" = None) by (vm_compute; reflexivity).
  assert (Hr : fst (recommendations app form (init 0%nat)) = Ok r)
    by (vm_compute; reflexivity).
  split; [exact He|]. split; [exact Hr|].
  exact (proj2 (X14_missing_emotion app form (init 0%nat) He) r Hr).
Defined.

Lemma X15_witness :
  let xs := [demo_user "Ada" "Lovelace"; demo_user "Alan" "Turing"] in
  let us := ["Ada Lovelace"; "Alan Turing"] in
  getitem demo_users_doc "results" = Ok (JList xs) /\
  users_of demo_users_doc = Ok us /\
  Forall2 (fun x s =>
             exists name f l,
               getitem x "name" = Ok name /\
               getitem name "first" = Ok (JStr f) /\
               getitem name "last" = Ok (JStr l) /\
               s = (f +:+ " ") +:+ l) xs us.
Proof.
  intros xs us.
  split; [vm_compute; reflexivity|]. split; [vm_compute; reflexivity|].
  apply (X15_users_of demo_users_doc xs us); vm_compute; reflexivity.
Defined.

Lemma X16_witness :
  let app := demo_app ∅ in
  let files := demo_upload "cat.png" "catbytes" in
  let st' := {| world := 3%nat; captions := []; log := [] |} in
  caption_generation app POST files (init 0%nat)
    = (Ok (Some "/static/uploads/cat.png", Some "a photo of catbytes"), st') /\
  ((Some "/static/uploads/cat.png" = None /\ Some "a photo of catbytes" = None /\
    st' = init 0%nat) \/
   (exists file c w1 img w2,
      POST = POST /\
      files !! "image" = Some file /\
      truthy (filename file) = true /\
      let name := secure_filename app (default "" (filename file)) in
      file_save app (path_join "static/uploads" name) (stream file) (world (init 0%nat))
        = (Ok tt, w1) /\
      Image_open (app_env app) (stream file) w1 = (Ok img, w2) /\
      upload_captioner app img w2 = (Ok c, world st') /\
      Some "/static/uploads/cat.png" = Some (url_for_static app ("uploads/" +:+ name)) /\
      Some "a photo of catbytes" = Some c)).
Proof.
  intros app files st'.
  assert (H : caption_generation app POST files (init 0%nat)
              = (Ok (Some "/static/uploads/cat.png", Some "a photo of catbytes"), st'))
    by (vm_compute; reflexivity).
  split; [exact H|].
  exact (X16_caption_generation_result app POST files (init 0%nat) st'
           (Some "/static/uploads/cat.png") (Some "a photo of catbytes") H).
Defined.

Lemma X17_witness :
  let app := demo_app ∅ in
  let file := {| filename := Some "notes.txt"; stream := "corrupt" |} in
  let files := demo_upload "notes.txt" "corrupt" in
  let e := OtherException "UnidentifiedImageError" in
  files !! "image" = Some file /\
  truthy (filename file) = true /\
  file_save app
    (path_join "static/uploads" (secure_filename app (default "" (filename file))))
    (stream file) 0%nat = (Ok tt, 1%nat) /\
  Image_open (app_env app) (stream file) 1%nat = (Raise e, 2%nat) /\
  caption_generation app POST files (init 0%nat) =
  (Raise e, {| world := 2%nat; captions := []; log := [] |}).
Proof.
  intros app file files e.
  repeat (split; [vm_compute; reflexivity|]).
  apply (X17_upload_saved_before_decode app files (init 0%nat) file 1%nat e 2%nat);
    vm_compute; reflexivity.
Defined.
